(** * VideoConverterScripts: option resolution, command construction, batch orchestration

    A shallow embedding of [image_converter.py] and [video_converter.py]
    together with the properties of the repository's specification that
    concern them.

    Conventions.
    - Python [str] values are [string]s of ASCII characters.
    - Python [int] is [Z]; Python [float] is IEEE-754 binary64, taken from
      the Standard Library's executable [SpecFloat] ([prec = 53],
      [emax = 1024]).  The interpreter is CPython with its default limit
      of 4300 digits on the conversions between [int] and decimal text:
      [int(s)], [str(n)] and the formatting of an [int] beyond it raise
      [ValueError].
    - A Python call either returns or raises: [result A].  Only subclasses
      of [Exception] are modelled; asynchronous interrupts are not.
      Printing is not modelled.
    - The file system, the Pillow library and the encoder process are
      external: they form the [Platform] interface, over which every
      statement about [convert] and [batch_convert] is quantified.  Every
      operation may raise, [Path.exists] included: up to CPython 3.13 it
      raises the [OSError]s that do not mean that the file is absent (a
      name that is too long, a directory that may not be searched). *)

From Stdlib Require Import ZArith String Ascii List Bool Lia SpecFloat.
From stdpp Require Import gmap strings list.

Local Open Scope string_scope.
Local Open Scope Z_scope.

(** ** Python values, exceptions and builtin functions *)

Module Py.

(** Exception classes raised by the embedded code or by its collaborators. *)
Inductive exn : Set :=
  | ValueError
  | TypeError
  | ZeroDivisionError
  | OverflowError
  | RuntimeError
  | OSError
  | ExternalError (tag : string).

Inductive result (A : Type) : Type :=
  | Ok (a : A)
  | Raise (e : exn).
Arguments Ok {A} a.
Arguments Raise {A} e.

Definition rbind {A B} (r : result A) (k : A -> result B) : result B :=
  match r with
  | Ok a => k a
  | Raise e => Raise e
  end.

Definition is_ok {A} (r : result A) : bool :=
  match r with Ok _ => true | Raise _ => false end.

(** *** Characters and strings *)

Definition code (c : ascii) : N := N_of_ascii c.

Definition is_digit (c : ascii) : bool := ((48 <=? code c) && (code c <=? 57))%N.

Definition digit_val (c : ascii) : Z := Z.of_N (code c) - 48.

(** C-locale white space, the characters [int] and [float] skip around an
    ASCII string: space, [\t], [\n], [\v], [\f], [\r]. *)
Definition is_space (c : ascii) : bool :=
  ((code c =? 32) || ((9 <=? code c) && (code c <=? 13)))%N.

Definition lower_char (c : ascii) : ascii :=
  if ((65 <=? code c) && (code c <=? 90))%N then ascii_of_N (code c + 32) else c.

(** [str.lower()] *)
Fixpoint lower (s : string) : string :=
  match s with
  | EmptyString => EmptyString
  | String c r => String (lower_char c) (lower r)
  end.

(** [c in s] for a one-character [c] *)
Fixpoint contains_char (c : ascii) (s : string) : bool :=
  match s with
  | EmptyString => false
  | String d r => Ascii.eqb c d || contains_char c r
  end.

(** [s.endswith(c)] for a one-character [c] *)
Fixpoint endswith_char (c : ascii) (s : string) : bool :=
  match s with
  | EmptyString => false
  | String d EmptyString => Ascii.eqb c d
  | String _ r => endswith_char c r
  end.

(** [s[:-1]] *)
Fixpoint drop_last (s : string) : string :=
  match s with
  | EmptyString => EmptyString
  | String _ EmptyString => EmptyString
  | String c r => String c (drop_last r)
  end.

(** [s.split(c)] for a one-character separator: never empty, and
    [length (split c s)] is one more than the occurrences of [c]. *)
Fixpoint split (c : ascii) (s : string) : list string :=
  match s with
  | EmptyString => [EmptyString]
  | String d r =>
      if Ascii.eqb c d then EmptyString :: split c r
      else match split c r with
           | p :: ps => String d p :: ps
           | [] => [String d EmptyString]
           end
  end.

Fixpoint lstrip_with (f : ascii -> bool) (s : string) : string :=
  match s with
  | EmptyString => EmptyString
  | String c r => if f c then lstrip_with f r else s
  end.

Fixpoint rstrip_with (f : ascii -> bool) (s : string) : string :=
  match s with
  | EmptyString => EmptyString
  | String c r =>
      match rstrip_with f r with
      | EmptyString => if f c then EmptyString else String c EmptyString
      | r' => String c r'
      end
  end.

Definition strip_space (s : string) : string :=
  rstrip_with is_space (lstrip_with is_space s).

(** Truth value of a string: [bool(s)] *)
Definition truthy (s : string) : bool :=
  match s with EmptyString => false | _ => true end.

(** [options.get(k)] when it is tested, [if options.get(k):], for a string
    option: the value, if the key is present and the string is not empty. *)
Definition given (o : option string) : option string :=
  match o with
  | Some s => if truthy s then Some s else None
  | None => None
  end.

(** *** [int(str)] and [str(int)] *)

(** Decimal digits with single underscores between digits; [prev] tells
    whether the previous character was a digit. *)
Fixpoint digits_us (s : string) (acc : Z) (prev : bool) : option Z :=
  match s with
  | EmptyString => if prev then Some acc else None
  | String c r =>
      if is_digit c then digits_us r (10 * acc + digit_val c) true
      else if Ascii.eqb c "_" then
             if prev then digits_us r acc false else None
           else None
  end.

Definition split_sign (s : string) : bool * string :=
  match s with
  | String "-" r => (true, r)
  | String "+" r => (false, r)
  | _ => (false, s)
  end.

(** [sys.int_max_str_digits], at its default: the largest number of
    digits that [int(s)] reads and that [str(n)] writes. *)
Definition int_max_str_digits : Z := 4300.

(** The number of digit characters of [s]; signs and underscores do not
    count towards the limit. *)
Fixpoint count_digits (s : string) : Z :=
  match s with
  | EmptyString => 0
  | String c r => (if is_digit c then 1 else 0) + count_digits r
  end.

(** [int(s)], base 10 *)
Definition int_of_str (s : string) : result Z :=
  let (neg, body) := split_sign (strip_space s) in
  match digits_us body 0 false with
  | Some n =>
      if int_max_str_digits <? count_digits body then Raise ValueError
      else Ok (if neg then - n else n)
  | None => Raise ValueError
  end.

Fixpoint pos_digits (fuel : nat) (n : Z) (acc : string) : string :=
  match fuel with
  | O => acc
  | S fuel' =>
      let acc' := String (ascii_of_N (Z.to_N (48 + n mod 10))) acc in
      if n <? 10 then acc' else pos_digits fuel' (n / 10) acc'
  end.

(** The decimal text of an integer. *)
Definition decimal (n : Z) : string :=
  let a := Z.abs n in
  let d := pos_digits (S (Z.to_nat (Z.log2 a))) a EmptyString in
  if n <? 0 then String "-" d else d.

(** [str(n)] for an [int], and its formatting in an f-string *)
Definition str_of_int (n : Z) : result string :=
  let text := decimal n in
  if int_max_str_digits <? count_digits text then Raise ValueError
  else Ok text.

(** *** binary64 *)

Definition float := spec_float.

Definition prec : Z := 53.
Definition emax : Z := 1024.

Definition fmul : float -> float -> float := SFmul prec emax.
Definition fdiv : float -> float -> float := SFdiv prec emax.
Definition fltb : float -> float -> bool := SFltb.

(** The double nearest to an integer (ties to even); an infinity when out
    of range. *)
Definition round_Z (n : Z) : float := binary_normalize prec emax n 0 false.

(** Conversion of an [int] operand of a float operation. *)
Definition float_of_int (n : Z) : result float :=
  match round_Z n with
  | S754_infinity _ => Raise OverflowError
  | f => Ok f
  end.

(** [int(f)]: truncation toward zero. *)
Definition int_of_float (f : float) : result Z :=
  match f with
  | S754_zero _ => Ok 0
  | S754_infinity _ => Raise OverflowError
  | S754_nan => Raise ValueError
  | S754_finite s m e =>
      let a := Z.shiftl (Zpos m) e in
      Ok (if s then - a else a)
  end.

(** [a / b] on [int]s: the correctly rounded quotient. *)
Definition int_truediv (a b : Z) : result float :=
  match a, b with
  | _, Z0 => Raise ZeroDivisionError
  | Z0, _ => Ok (S754_zero (b <? 0))
  | _, _ =>
      let q := SFdiv prec emax
                 (S754_finite (a <? 0) (Z.to_pos (Z.abs a)) 0)
                 (S754_finite (b <? 0) (Z.to_pos (Z.abs b)) 0) in
      match q with
      | S754_infinity _ => Raise OverflowError
      | _ => Ok q
      end
  end.

(** [n * f] with [n] an [int] and [f] a [float]. *)
Definition int_mul_float (n : Z) (f : float) : result float :=
  rbind (float_of_int n) (fun x => Ok (fmul x f)).

(** *** [float(str)] *)

(** Every underscore stands between two digits. *)
Fixpoint underscores_ok (s : string) (prev : bool) : bool :=
  match s with
  | EmptyString => true
  | String c r =>
      if Ascii.eqb c "_" then
        prev && match r with
                | String d _ => is_digit d
                | EmptyString => false
                end && underscores_ok r false
      else underscores_ok r (is_digit c)
  end.

Fixpoint remove_underscores (s : string) : string :=
  match s with
  | EmptyString => EmptyString
  | String c r =>
      if Ascii.eqb c "_" then remove_underscores r
      else String c (remove_underscores r)
  end.

(** Leading digits of [s]: their value, their number, and the rest. *)
Fixpoint take_digits (s : string) (acc : Z) (n : Z) : Z * Z * string :=
  match s with
  | String c r =>
      if is_digit c then take_digits r (10 * acc + digit_val c) (n + 1)
      else (acc, n, s)
  | EmptyString => (acc, n, s)
  end.

(** The value [m * 10^e10] with [m > 0], correctly rounded. *)
Definition decimal_to_float (neg : bool) (m : positive) (e10 : Z) : float :=
  if 0 <=? e10 then
    binary_normalize prec emax
      (if neg then Zneg m * 10 ^ e10 else Zpos m * 10 ^ e10) 0 false
  else
    SFdiv prec emax (S754_finite neg m 0)
      (S754_finite false (Z.to_pos (10 ^ (- e10))) 0).

(** Optional exponent part; [None] when the text is not a float literal. *)
Definition parse_exponent (s : string) : option Z :=
  match s with
  | EmptyString => Some 0
  | String c r =>
      if Ascii.eqb (lower_char c) "e" then
        let (neg, body) := split_sign r in
        match take_digits body 0 0 with
        | (v, n, EmptyString) =>
            if 0 <? n then Some (if neg then - v else v) else None
        | _ => None
        end
      else None
  end.

Definition parse_decimal (neg : bool) (s : string) : option float :=
  let '(ip, ni, r1) := take_digits s 0 0 in
  let '(m, nf, r2) :=
    match r1 with
    | String "." r => take_digits r ip 0
    | _ => (ip, 0, r1)
    end in
  if (ni + nf) =? 0 then None
  else match parse_exponent r2 with
       | None => None
       | Some e =>
           Some match m with
                | Zpos p => decimal_to_float neg p (e - nf)
                | _ => S754_zero neg
                end
       end.

(** [float(s)] *)
Definition float_of_str (s : string) : result float :=
  if negb (underscores_ok s false) then Raise ValueError
  else
    let (neg, body) := split_sign (strip_space (remove_underscores s)) in
    let w := lower body in
    if String.eqb w "inf" || String.eqb w "infinity" then Ok (S754_infinity neg)
    else if String.eqb w "nan" then Ok S754_nan
    else match parse_decimal neg body with
         | Some f => Ok f
         | None => Raise ValueError
         end.

End Py.

Export Py.

(** [result] is a monad; stdpp's [x ← m; k] notation is used for it. *)
#[export] Instance result_ret : MRet result := fun _ a => Ok a.
#[export] Instance result_bind : MBind result := fun _ _ k r => rbind r k.

(** ** [pathlib.PurePosixPath] *)

Module PurePath.

Record t : Type := mk { root : string; parts : list string }.

Definition is_component (p : string) : bool :=
  negb (String.eqb p "") && negb (String.eqb p ".").

(** The root of a POSIX path: exactly two leading slashes are kept. *)
Definition root_of (s : string) : string :=
  match s with
  | String "/" (String "/" (String "/" _)) => "/"
  | String "/" (String "/" _) => "//"
  | String "/" _ => "/"
  | _ => ""
  end.

(** [Path(s)] *)
Definition of_str (s : string) : t :=
  mk (root_of s) (List.filter is_component (split "/" s)).

Fixpoint join_parts (ps : list string) : string :=
  match ps with
  | [] => ""
  | [p] => p
  | p :: rest => p ++ "/" ++ join_parts rest
  end.

(** [str(p)] *)
Definition to_str (p : t) : string :=
  match parts p with
  | [] => if String.eqb (root p) "" then "." else root p
  | ps => root p ++ join_parts ps
  end.

(** [p.name] *)
Definition name (p : t) : string := List.last (parts p) "".

(** The text before the last dot and the text from it on. *)
Fixpoint rsplit_dot (s : string) : option (string * string) :=
  match s with
  | EmptyString => None
  | String c r =>
      match rsplit_dot r with
      | Some (a, b) => Some (String c a, b)
      | None => if Ascii.eqb c "." then Some ("", s) else None
      end
  end.

(** [(p.stem, p.suffix)]: the last dot splits the name unless it is the
    first or the last character. *)
Definition split_ext (n : string) : string * string :=
  match rsplit_dot n with
  | Some (String c a, String d (String e b)) => (String c a, String d (String e b))
  | _ => (n, "")
  end.

Definition stem (p : t) : string := fst (split_ext (name p)).
Definition suffix (p : t) : string := snd (split_ext (name p)).

(** [p.parent] *)
Definition parent (p : t) : t :=
  match parts p with
  | [] => p
  | ps => mk (root p) (List.removelast ps)
  end.

(** [p / s] *)
Definition joinpath (p : t) (s : string) : t :=
  let q := of_str s in
  if String.eqb (root q) "" then mk (root p) (parts p ++ parts q) else q.

End PurePath.

(** ** The external collaborators *)

(** Values stored in a Pillow save-parameter dictionary. *)
Inductive pyval : Type :=
  | VBool (b : bool)
  | VInt (n : Z)
  | VStr (s : string).

Inductive Filter : Type :=
  | SHARPEN
  | GaussianBlur (radius : float).

(** The file system, the encoder process and Pillow.  An operation that
    reads or writes files takes the state of the world; the others are
    functions of their arguments that may raise. *)
Class Platform : Type := {
  World : Type;
  Image : Type;
  Pixels : Type;
  (** [Path(p).exists()] *)
  path_exists : string -> World -> result bool;
  (** [Path(p).mkdir(parents=True, exist_ok=True)] *)
  mkdir_parents : string -> World -> result unit * World;
  (** [Path(p).stat().st_size] *)
  stat_size : string -> World -> result Z;
  (** [subprocess.Popen(cmd, ...)], draining of its diagnostic stream and
      [wait()]: the exit code. *)
  run_encoder : list string -> World -> result Z * World;
  (** [Image.open(p)] *)
  image_open : string -> World -> result Image;
  (** [img.save(p, format=f, **params)] *)
  image_save : Image -> string -> option string -> gmap string pyval ->
               World -> result unit * World;
  image_format : Image -> option string;
  image_mode : Image -> string;
  image_size : Image -> Z * Z;
  (** [img.resize(size, Image.Resampling.LANCZOS)] *)
  image_resize : Image -> Z * Z -> result Image;
  (** [img.filter(f)] *)
  image_filter : Image -> Filter -> result Image;
  (** [ImageOps.autocontrast(img)] *)
  image_autocontrast : Image -> result Image;
  (** [img.convert(mode)] *)
  image_convert : Image -> string -> result Image;
  (** [img.convert('P', palette=Image.ADAPTIVE, colors=n)] *)
  image_convert_adaptive : Image -> Z -> result Image;
  (** [img.thumbnail(size, Image.Resampling.LANCZOS)], on a private copy *)
  image_thumbnail : Image -> Z * Z -> result Image;
  (** [img.split()[-1]] *)
  image_last_band : Image -> result Image;
  (** [band.point(lambda p: int(p * opacity))] *)
  image_scale_band : Image -> float -> result Image;
  (** [img.putalpha(alpha)], on a private copy *)
  image_putalpha : Image -> Image -> result Image;
  (** [Image.new(mode, size, color)] *)
  image_new : string -> Z * Z -> option (Z * Z * Z) -> result Image;
  (** [dst.paste(src, box, mask)], on a private copy of [dst] *)
  image_paste : Image -> Image -> option (Z * Z) -> option Image -> result Image;
  (** [dst.paste(src, box, mask)] in place on an image the caller still
      holds: the image after the call, and the exception if it raised. *)
  image_paste_inplace : Image -> Image -> Z * Z -> Image -> Image * option exn;
  (** [list(img.getdata())] *)
  image_getdata : Image -> result Pixels;
  (** [img.putdata(data)], on a fresh image *)
  image_putdata : Image -> Pixels -> result Image
}.

(** ** Computations in the world: state and exceptions *)

Definition io `{Platform} (A : Type) : Type := World -> result A * World.

Section IO.
Context `{Platform}.

Definition io_ret {A} (a : A) : io A := fun w => (Ok a, w).

Definition io_bind {A B} (m : io A) (k : A -> io B) : io B :=
  fun w => match m w with
           | (Ok a, w') => k a w'
           | (Raise e, w') => (Raise e, w')
           end.

(** A call that may raise but leaves the world alone. *)
Definition io_lift {A} (r : result A) : io A := fun w => (r, w).

(** A call that only reads the world. *)
Definition io_read {A} (f : World -> result A) : io A := fun w => (f w, w).

(** [try: body  except Exception: handler] *)
Definition try_except {A} (body : io A) (handler : exn -> io A) : io A :=
  fun w => match body w with
           | (Ok a, w') => (Ok a, w')
           | (Raise e, w') => handler e w'
           end.

End IO.

Notation "'do' x <- m ; k" := (io_bind m (fun x => k))
  (at level 10, x binder, m at level 100, k at level 200,
   format "'[v' 'do'  x  <-  m ; '/' k ']'").

(** ** The loop shared by the two [batch_convert] methods *)

Module Batch.
Section Loop.
Context `{Platform}.

(** [process input_path] stands for the statements of the loop body that
    follow the existence check: the output file name and the call of
    [self.convert]. *)
Variable process : PurePath.t -> io bool.

(** [for input_file in input_files: ...], with the dictionary [results]
    built so far. *)
Fixpoint loop (input_files : list string) (results : gmap string bool)
  : io (gmap string bool) :=
  match input_files with
  | [] => io_ret results
  | input_file :: rest =>
      let input_path := PurePath.of_str input_file in
      do found <- io_read (path_exists (PurePath.to_str input_path));
      if negb found then loop rest (<[input_file := false]> results)
      else do r <- process input_path;
           loop rest (<[input_file := r]> results)
  end.

(** The same loop, which also records, in order, the inputs for which
    [process] is called. *)
Fixpoint loop_traced (input_files : list string) (results : gmap string bool)
    (calls : list string) : io (gmap string bool * list string) :=
  match input_files with
  | [] => io_ret (results, calls)
  | input_file :: rest =>
      let input_path := PurePath.of_str input_file in
      do found <- io_read (path_exists (PurePath.to_str input_path));
      if negb found then loop_traced rest (<[input_file := false]> results) calls
      else do r <- process input_path;
           loop_traced rest (<[input_file := r]> results) (calls ++ [input_file])
  end.

End Loop.
End Batch.

(** ** [image_converter.py] *)

Module ImageConverter.

(** The instance attributes set by [__init__]. *)
Record t : Type := {
  supported_input_formats : gset string;
  supported_output_formats : gmap string string;
  quality_presets : gmap string Z
}.

(** [ImageConverter()] *)
Definition init : t := {|
  supported_input_formats :=
    list_to_set [".jpg"; ".jpeg"; ".png"; ".bmp"; ".tiff"; ".tif";
                 ".webp"; ".gif"; ".ico"; ".ppm"; ".pgm"; ".pbm"];
  supported_output_formats :=
    list_to_map [("jpg", "JPEG"); ("jpeg", "JPEG"); ("png", "PNG");
                 ("webp", "WebP"); ("tiff", "TIFF"); ("bmp", "BMP");
                 ("gif", "GIF"); ("ico", "ICO")];
  quality_presets :=
    list_to_map [("low", 60); ("medium", 85); ("high", 95); ("maximum", 100)]
|}.

(** The keyword options read by [convert] and its helpers; [None] is an
    option absent from [**options]. *)
Record options : Type := {
  format : option string;
  resize : option string;
  quality : option pyval;
  compress : option bool;
  optimize : option bool;
  progressive : option bool;
  strip_metadata : option bool;
  sharpen : option bool;
  blur : option bool;
  blur_radius : option float;
  auto_enhance : option bool;
  watermark : option string;
  watermark_position : option string;
  watermark_opacity : option float;
  watermark_size : option float
}.

Definition no_options : options :=
  Build_options None None None None None None None None None None None None
                None None None.

(** [if options.get(k):] for a flag *)
Definition flag (o : option bool) : bool := default false o.

(** [import PIL] cannot fail here: the module has imported Pillow when it
    was loaded. *)
Definition _check_dependencies (self : t) : bool := true.

(** Float literals of the source. *)
Definition float_100 : float := round_Z 100.
Definition float_1_0 : float := round_Z 1.
Definition float_0_5 : float := fdiv (round_Z 1) (round_Z 2).
Definition float_0_1 : float := fdiv (round_Z 1) (round_Z 10).

(** [int(n * f)] *)
Definition scale_int (n : Z) (f : float) : result Z :=
  x ← int_mul_float n f; int_of_float x.

(** [parts[i]], where [parts] comes from a split on a separator that
    occurs: it has at least two elements. *)
Definition part (parts : list string) (i : nat) : string := nth i parts "".

Definition _parse_resize (resize_spec : string) (original_size : Z * Z)
  : result (Z * Z) :=
  let (width, height) := original_size in
  if endswith_char "%" resize_spec then
    (* Percentage resize *)
    p ← float_of_str (drop_last resize_spec);
    let percentage := fdiv p float_100 in
    w ← scale_int width percentage;
    h ← scale_int height percentage;
    Ok (w, h)
  else if contains_char "x" (lower resize_spec) then
    (* Explicit dimensions *)
    let parts := split "x" (lower resize_spec) in
    new_width ← (if truthy (part parts 0) then int_of_str (part parts 0)
                 else Ok width);
    new_height ← (if truthy (part parts 1) then int_of_str (part parts 1)
                  else Ok height);
    Ok (new_width, new_height)
  else
    (* Single number - assume width, maintain aspect ratio *)
    new_width ← int_of_str resize_spec;
    aspect_ratio ← int_truediv height width;
    new_height ← scale_int new_width aspect_ratio;
    Ok (new_width, new_height).

(** Lines 256-259 of [convert]: the quality setting. *)
Definition resolve_quality (self : t) (o : options) : pyval :=
  let quality := default (VInt 85) (quality o) in
  match quality with
  | VStr name =>
      match quality_presets self !! name with
      | Some n => VInt n
      | None => quality
      end
  | _ => quality
  end.

(** Lines 264-276 of [convert]: the save parameters. *)
Definition prepare_save_options (format_name : option string) (quality : pyval)
    (o : options) : gmap string pyval :=
  let save_options : gmap string pyval := ∅ in
  if bool_decide (format_name = Some "JPEG") then
    let save_options := <["quality" := quality]> save_options in
    let save_options :=
      <["optimize" := VBool (default true (optimize o))]> save_options in
    if flag (progressive o) then <["progressive" := VBool true]> save_options
    else save_options
  else if bool_decide (format_name = Some "PNG") then
    <["optimize" := VBool (default true (optimize o))]> save_options
  else if bool_decide (format_name = Some "WebP") then
    let save_options := <["quality" := quality]> save_options in
    <["optimize" := VBool (default true (optimize o))]> save_options
  else save_options.

Section WithPlatform.
Context `{Platform}.

Definition mode_in (img : Image) (modes : list string) : bool :=
  bool_decide (image_mode img ∈ modes).

Definition _optimize_image (img : Image) (format_name : option string)
    (o : options) : result Image :=
  (* Handle transparency for formats that don't support it *)
  img ← (if bool_decide (format_name = Some "JPEG") && mode_in img ["RGBA"; "LA"]
         then
           background ← image_new "RGB" (image_size img) (Some (255, 255, 255));
           if String.eqb (image_mode img) "RGBA" then
             mask ← image_last_band img;
             image_paste background img None (Some mask)
           else image_paste background img None None
         else if bool_decide (format_name = Some "JPEG")
                 && negb (mode_in img ["RGB"; "L"])
         then image_convert img "RGB"
         else Ok img);
  (* Handle PNG optimization *)
  if bool_decide (format_name = Some "PNG") && String.eqb (image_mode img) "RGB"
  then
    if default true (optimize o) then
      match image_convert_adaptive img 256 with
      | Ok img' => Ok img'
      | Raise _ => Ok img (* Keep original if conversion fails *)
      end
    else Ok img
  else Ok img.

Definition _apply_filters (img : Image) (o : options) : result Image :=
  img ← (if flag (sharpen o) then image_filter img SHARPEN else Ok img);
  img ← (if flag (blur o) then
           let blur_radius := default float_1_0 (blur_radius o) in
           image_filter img (GaussianBlur blur_radius)
         else Ok img);
  if flag (auto_enhance o) then image_autocontrast img else Ok img.

(** The placement of a watermark of size [wm] on a canvas of size [canvas]. *)
Definition watermark_pos (position : string) (canvas wm : Z * Z) : Z * Z :=
  let (img_width, img_height) := canvas in
  let (wm_width, wm_height) := wm in
  if String.eqb position "top-left" then (10, 10)
  else if String.eqb position "top-right" then (img_width - wm_width - 10, 10)
  else if String.eqb position "bottom-left" then (10, img_height - wm_height - 10)
  else if String.eqb position "bottom-right" then
    (img_width - wm_width - 10, img_height - wm_height - 10)
  else if String.eqb position "center" then
    ((img_width - wm_width) / 2, (img_height - wm_height) / 2)
  else (10, 10).

(** The part of the [try] block of [_add_watermark] that leaves [img]
    alone: the scaled, faded watermark and its position. *)
Definition load_watermark (img : Image) (watermark_path : string) (o : options)
    (w : World) : result (Image * (Z * Z)) :=
  watermark ← image_open watermark_path w;
  let position := default "bottom-right" (watermark_position o) in
  let opacity := default float_0_5 (watermark_opacity o) in
  let size_ratio := default float_0_1 (watermark_size o) in
  (* Calculate watermark size *)
  let (img_width, img_height) := image_size img in
  wm_size ← scale_int (Z.min img_width img_height) size_ratio;
  watermark ← image_convert watermark "RGBA";
  watermark ← image_thumbnail watermark (wm_size, wm_size);
  (* Apply opacity *)
  watermark ← (if fltb opacity float_1_0 then
                 alpha ← image_last_band watermark;
                 alpha ← image_scale_band alpha opacity;
                 image_putalpha watermark alpha
               else Ok watermark);
  Ok (watermark, watermark_pos position (img_width, img_height)
                   (image_size watermark)).

(** The [try] block of [_add_watermark]: the binding of [img] when the
    block is left, and the exception that left it, if any. *)
Definition _add_watermark_try (img : Image) (watermark_path : string)
    (o : options) (w : World) : Image * option exn :=
  match load_watermark img watermark_path o w with
  | Raise e => (img, Some e)
  | Ok (watermark, pos) =>
      (* Convert main image to RGBA for transparency support *)
      match (if negb (String.eqb (image_mode img) "RGBA")
             then image_convert img "RGBA" else Ok img) with
      | Raise e => (img, Some e)
      | Ok img => image_paste_inplace img watermark pos watermark
      end
  end.

Definition _add_watermark (img : Image) (watermark_path : string) (o : options)
  : io Image :=
  fun w =>
    let (img, raised) := _add_watermark_try img watermark_path o w in
    match raised with
    | None => io_ret img w
    | Some e => (* print(f"Warning: Could not add watermark: {e}") *)
        io_ret img w
    end.

(** Lines 229-242 of [convert]; [None] is the early [return False]. *)
Definition output_format_name (self : t) (output_path : string) (o : options)
    (original_format : option string) : option (option string) :=
  match given (format o) with
  | Some output_format =>
      match supported_output_formats self !! lower output_format with
      | Some format_name =>
          if truthy format_name then Some (Some format_name) else None
      | None => None
      end
  | None =>
      (* Use output file extension or keep original format *)
      let output_ext :=
        lstrip_with (Ascii.eqb ".")
          (lower (PurePath.suffix (PurePath.of_str output_path))) in
      match supported_output_formats self !! output_ext with
      | Some format_name => Some (Some format_name)
      | None => Some original_format
      end
  end.

(** Lines 278-284 of [convert]. *)
Definition strip_exif (img : Image) : result Image :=
  data ← image_getdata img;
  img_no_exif ← image_new (image_mode img) (image_size img) None;
  image_putdata img_no_exif data.

(** The statements of [convert] that follow the watermark step. *)
Definition finish (self : t) (img : Image) (output_path : string)
    (format_name : option string) (o : options) : io bool :=
  (* Get quality setting *)
  let quality := resolve_quality self o in
  (* Optimize image for target format *)
  do img <- io_lift (_optimize_image img format_name o);
  (* Prepare save options *)
  let save_options := prepare_save_options format_name quality o in
  (* Remove EXIF data if requested *)
  do img <- (if flag (strip_metadata o) then io_lift (strip_exif img)
             else io_ret img);
  (* Save the image *)
  do _ <- image_save img output_path format_name save_options;
  io_ret true.

(** The [try] block of [convert]. *)
Definition convert_try (self : t) (input_path output_path : string)
    (o : options) : io bool :=
  (* Create output directory if it doesn't exist *)
  do _ <- mkdir_parents
            (PurePath.to_str (PurePath.parent (PurePath.of_str output_path)));
  do img <- io_read (image_open input_path);
  (* Store original format for reference *)
  let original_format := image_format img in
  (* Determine output format *)
  match output_format_name self output_path o original_format with
  | None => io_ret false
  | Some format_name =>
      (* Apply resize if specified *)
      do img <- (match given (resize o) with
                 | Some spec =>
                     io_lift (new_size ← _parse_resize spec (image_size img);
                              image_resize img new_size)
                 | None => io_ret img
                 end);
      (* Apply filters *)
      do img <- io_lift (_apply_filters img o);
      (* Add watermark if specified *)
      do img <- (match given (watermark o) with
                 | Some watermark_path => _add_watermark img watermark_path o
                 | None => io_ret img
                 end);
      finish self img output_path format_name o
  end.

Definition convert (self : t) (input_path output_path : string) (o : options)
  : io bool :=
  if negb (_check_dependencies self) then io_ret false else
  let input_file := PurePath.of_str input_path in
  do found <- io_read (path_exists (PurePath.to_str input_file));
  if negb found then io_ret false
  else if negb (bool_decide (lower (PurePath.suffix input_file)
                               ∈ supported_input_formats self))
  then io_ret false
  else try_except (convert_try self input_path output_path o)
         (fun e => io_ret false).

(** Lines 379-384 of [batch_convert]: the output file name. *)
Definition output_file (output_path input_path : PurePath.t) (o : options)
  : PurePath.t :=
  match given (format o) with
  | Some output_format =>
      PurePath.joinpath output_path
        (PurePath.stem input_path ++ "." ++ output_format)
  | None => PurePath.joinpath output_path (PurePath.name input_path)
  end.

(** The loop body of [batch_convert] after the existence check. *)
Definition process (self : t) (output_path : PurePath.t) (o : options)
    (input_path : PurePath.t) : io bool :=
  convert self (PurePath.to_str input_path)
    (PurePath.to_str (output_file output_path input_path o)) o.

Definition batch_convert (self : t) (input_files : list string)
    (output_dir : string) (o : options) : io (gmap string bool) :=
  let output_path := PurePath.of_str output_dir in
  do _ <- mkdir_parents (PurePath.to_str output_path);
  Batch.loop (process self output_path o) input_files ∅.

(** [batch_convert] with the record of the calls of [convert]. *)
Definition batch_convert_traced (self : t) (input_files : list string)
    (output_dir : string) (o : options)
  : io (gmap string bool * list string) :=
  let output_path := PurePath.of_str output_dir in
  do _ <- mkdir_parents (PurePath.to_str output_path);
  Batch.loop_traced (process self output_path o) input_files ∅ [].

(** [options['resize'] = size] *)
Definition set_resize (size : string) (o : options) : options :=
  let 'Build_options f _ q c op pr sm sh bl br ae wm wp wo ws := o in
  Build_options f (Some size) q c op pr sm sh bl br ae wm wp wo ws.

(** [options['quality'] = quality; options['compress'] = True;
    options['optimize'] = True] *)
Definition set_compress (quality : pyval) (o : options) : options :=
  let 'Build_options f r _ _ _ pr sm sh bl br ae wm wp wo ws := o in
  Build_options f r (Some quality) (Some true) (Some true) pr sm sh bl br ae
    wm wp wo ws.

(** The method [compress(input_path, output_path, quality, **options)];
    [quality] is 85 when the caller leaves it out. *)
Definition compress_ (self : t) (input_path output_path : string)
    (quality : pyval) (o : options) : io bool :=
  convert self input_path output_path (set_compress quality o).

(** The method [resize(input_path, output_path, size, **options)] *)
Definition resize_ (self : t) (input_path output_path size : string)
    (o : options) : io bool :=
  convert self input_path output_path (set_resize size o).

(** The save parameters of [create_thumbnail], line 347. *)
Definition thumbnail_save_options (o : options) : gmap string pyval :=
  <["optimize" := VBool true]>
    (<["quality" := default (VInt 85) (quality o)]> ∅).

(** [create_thumbnail(input_path, output_path, size, **options)]; [size] is
    [(200, 200)] when the caller leaves it out. *)
Definition create_thumbnail (self : t) (input_path output_path : string)
    (size : Z * Z) (o : options) : io bool :=
  try_except
    (do img <- io_read (image_open input_path);
     do img <- io_lift (image_thumbnail img size);
     (* Prepare save options *)
     let save_options := thumbnail_save_options o in
     (* Save thumbnail *)
     do _ <- image_save img output_path None save_options;
     io_ret true)
    (fun e => io_ret false).

End WithPlatform.

End ImageConverter.

(** ** [video_converter.py] *)

Module VideoConverter.

Record preset_settings : Type := { crf : Z; preset : string }.

(** The instance attributes set by [__init__]. *)
Record t : Type := {
  ffmpeg_path : option string;
  ffprobe_path : option string;
  quality_presets : gmap string preset_settings
}.

(** [VideoConverter()]; [which] is [shutil.which]. *)
Definition init (which : string -> option string) : t := {|
  ffmpeg_path := which "ffmpeg";
  ffprobe_path := which "ffprobe";
  quality_presets :=
    list_to_map [("low", {| crf := 28; preset := "fast" |});
                 ("medium", {| crf := 23; preset := "medium" |});
                 ("high", {| crf := 18; preset := "slow" |});
                 ("lossless", {| crf := 0; preset := "veryslow" |})]
|}.

(** The keyword options read by [_build_ffmpeg_command]; [None] is an
    option absent from [**options]. *)
Record options : Type := {
  start_time : option string;
  duration : option string;
  video_codec : option string;
  quality : option string;
  bitrate : option string;
  resolution : option string;
  fps : option Z;
  audio_codec : option string;
  speed_preset : option string; (* the option named [preset] *)
  format : option string;
  compress : option bool
}.

Definition no_options : options :=
  Build_options None None None None None None None None None None None.

(** [if options.get(k):] for an integer option *)
Definition given_int (o : option Z) : option Z :=
  match o with
  | Some n => if n =? 0 then None else Some n
  | None => None
  end.

Definition _check_dependencies (self : t) : bool :=
  match given (ffmpeg_path self) with Some _ => true | None => false end.

Definition _parse_resolution (resolution : string) : result (Z * Z) :=
  if contains_char "x" (lower resolution) then
    (* width, height = map(int, ...): the items are converted one by one,
       and a third item is asked for to check that there is none *)
    match split "x" (lower resolution) with
    | [a; b] =>
        width ← int_of_str a; height ← int_of_str b; Ok (width, height)
    | a :: b :: c :: _ =>
        _ ← int_of_str a; _ ← int_of_str b; _ ← int_of_str c; Raise ValueError
    | _ => Raise ValueError
    end
  else Raise ValueError.

Definition video_codec_map : gmap string string :=
  list_to_map [("h264", "libx264"); ("h265", "libx265");
               ("vp9", "libvpx-vp9"); ("av1", "libaom-av1")].

Definition audio_codec_map : gmap string string :=
  list_to_map [("aac", "aac"); ("mp3", "libmp3lame"); ("opus", "libopus")].

(** [cmd.extend(l)] *)
Local Abbreviation extend cmd l := (@app string cmd l) (only parsing).

Definition _build_ffmpeg_command (self : t) (input_path output_path : string)
    (o : options) : result (list string) :=
  match given (ffmpeg_path self) with
  | None => Raise RuntimeError
  | Some ffmpeg =>
      let cmd := [ffmpeg; "-i"; input_path] in
      (* Add start time if specified *)
      let cmd := match given (start_time o) with
                 | Some t => extend cmd ["-ss"; t]
                 | None => cmd
                 end in
      (* Add duration if specified *)
      let cmd := match given (duration o) with
                 | Some d => extend cmd ["-t"; d]
                 | None => cmd
                 end in
      (* Video codec *)
      let video_codec := default "h264" (video_codec o) in
      let cmd :=
        extend cmd ["-c:v"; default "libx264" (video_codec_map !! video_codec)] in
      (* Quality settings *)
      let quality := default "medium" (quality o) in
      cmd ← match quality_presets self !! quality with
            | Some preset_settings =>
                cmd ← (if negb (String.eqb video_codec "av1")
                       then crf_value ← str_of_int (crf preset_settings);
                            Ok (extend cmd ["-crf"; crf_value])
                       else Ok cmd);
                Ok (extend cmd ["-preset"; preset preset_settings])
            | None => Ok cmd
            end;
      (* Bitrate (overrides CRF if specified) *)
      let cmd := match given (bitrate o) with
                 | Some b => extend cmd ["-b:v"; b]
                 | None => cmd
                 end in
      (* Resolution *)
      cmd ← match given (resolution o) with
            | Some r =>
                '(width, height) ← _parse_resolution r;
                width ← str_of_int width;
                height ← str_of_int height;
                Ok (extend cmd ["-vf"; "scale=" ++ width ++ ":" ++ height])
            | None => Ok cmd
            end;
      (* Frame rate *)
      cmd ← match given_int (fps o) with
            | Some n => n ← str_of_int n; Ok (extend cmd ["-r"; n])
            | None => Ok cmd
            end;
      (* Audio codec *)
      let audio_codec := default "aac" (audio_codec o) in
      let cmd :=
        if String.eqb audio_codec "none" then extend cmd ["-an"]
        else extend cmd ["-c:a"; default "aac" (audio_codec_map !! audio_codec)] in
      (* Preset for encoding speed *)
      let preset := default "medium" (speed_preset o) in
      let cmd :=
        if bool_decide (video_codec ∈ ["h264"; "h265"])
        then extend cmd ["-preset"; preset]
        else cmd in
      (* Output format *)
      let output_format := default "mp4" (format o) in
      let cmd :=
        if String.eqb output_format "mp4"
        then extend cmd ["-movflags"; "+faststart"]
        else cmd in
      (* Overwrite output file *)
      let cmd := extend cmd ["-y"] in
      (* Output file *)
      Ok (extend cmd [output_path])
  end.


(** The pieces of the argument vector, in the order in which
    [_build_ffmpeg_command] appends them. *)

Definition codec_of (o : options) : string := default "h264" (video_codec o).

Definition trim_args (o : options) : list string :=
  (match given (start_time o) with Some t => ["-ss"; t] | None => [] end ++
   match given (duration o) with Some d => ["-t"; d] | None => [] end)%list.

Definition video_codec_args (o : options) : list string :=
  ["-c:v"; default "libx264" (video_codec_map !! codec_of o)].

Definition quality_args (self : t) (o : options) : result (list string) :=
  match quality_presets self !! default "medium" (quality o) with
  | Some preset_settings =>
      crf_args ← (if negb (String.eqb (codec_of o) "av1")
                  then crf_value ← str_of_int (crf preset_settings);
                       Ok ["-crf"; crf_value]
                  else Ok []);
      Ok (crf_args ++ ["-preset"; preset preset_settings])%list
  | None => Ok []
  end.

Definition bitrate_args (o : options) : list string :=
  match given (bitrate o) with Some b => ["-b:v"; b] | None => [] end.

Definition scale_args (o : options) : result (list string) :=
  match given (resolution o) with
  | Some r =>
      '(width, height) ← _parse_resolution r;
      width ← str_of_int width;
      height ← str_of_int height;
      Ok ["-vf"; "scale=" ++ width ++ ":" ++ height]
  | None => Ok []
  end.

Definition rate_args (o : options) : result (list string) :=
  match given_int (fps o) with
  | Some n => n ← str_of_int n; Ok ["-r"; n]
  | None => Ok []
  end.

Definition audio_args (o : options) : list string :=
  let audio_codec := default "aac" (audio_codec o) in
  if String.eqb audio_codec "none" then ["-an"]
  else ["-c:a"; default "aac" (audio_codec_map !! audio_codec)].

Definition speed_args (o : options) : list string :=
  if bool_decide (codec_of o ∈ ["h264"; "h265"])
  then ["-preset"; default "medium" (speed_preset o)] else [].

Definition container_args (o : options) : list string :=
  if String.eqb (default "mp4" (format o)) "mp4"
  then ["-movflags"; "+faststart"] else [].

(** The strings that the caller supplies and the builder copies into the
    vector as operands. *)
Definition operands (self : t) (input_path output_path : string) (o : options)
  : list string :=
  (option_list (ffmpeg_path self) ++ [input_path; output_path] ++
   option_list (start_time o) ++ option_list (duration o) ++
   option_list (bitrate o) ++ option_list (speed_preset o))%list.

Section WithPlatform.
Context `{Platform}.

(** Lines 205-216 of [convert]: the verdict on a finished encoder run. *)
Definition check_output (returncode : Z) (output_path : string) : io bool :=
  if returncode =? 0 then
    (* Verify output file was created and has size > 0 *)
    let output_file := PurePath.to_str (PurePath.of_str output_path) in
    do found <- io_read (path_exists output_file);
    if found then
      do size <- io_read (stat_size output_file); io_ret (0 <? size)
    else io_ret false
  else io_ret false.

(** The [try] block of [convert]. *)
Definition convert_try (self : t) (input_path output_path : string)
    (o : options) : io bool :=
  (* Create output directory if it doesn't exist *)
  do _ <- mkdir_parents
            (PurePath.to_str (PurePath.parent (PurePath.of_str output_path)));
  (* Build and execute FFmpeg command *)
  do cmd <- io_lift (_build_ffmpeg_command self input_path output_path o);
  do returncode <- run_encoder cmd;
  check_output returncode output_path.

Definition convert (self : t) (input_path output_path : string) (o : options)
  : io bool :=
  if negb (_check_dependencies self) then io_ret false else
  do found <- io_read (path_exists (PurePath.to_str (PurePath.of_str input_path)));
  if negb found then io_ret false
  else try_except (convert_try self input_path output_path o)
         (fun e => io_ret false).

(** Lines 348-350 of [batch_convert]: the output file name. *)
Definition output_file (output_path input_path : PurePath.t) (o : options)
  : PurePath.t :=
  let output_format := default "mp4" (format o) in
  PurePath.joinpath output_path
    (PurePath.stem input_path ++ "." ++ output_format).

(** The loop body of [batch_convert] after the existence check. *)
Definition process (self : t) (output_path : PurePath.t) (o : options)
    (input_path : PurePath.t) : io bool :=
  convert self (PurePath.to_str input_path)
    (PurePath.to_str (output_file output_path input_path o)) o.

Definition batch_convert (self : t) (input_files : list string)
    (output_dir : string) (o : options) : io (gmap string bool) :=
  let output_path := PurePath.of_str output_dir in
  do _ <- mkdir_parents (PurePath.to_str output_path);
  Batch.loop (process self output_path o) input_files ∅.

(** [batch_convert] with the record of the calls of [convert]. *)
Definition batch_convert_traced (self : t) (input_files : list string)
    (output_dir : string) (o : options)
  : io (gmap string bool * list string) :=
  let output_path := PurePath.of_str output_dir in
  do _ <- mkdir_parents (PurePath.to_str output_path);
  Batch.loop_traced (process self output_path o) input_files ∅ [].

(** [options['quality'] = quality; options['compress'] = True] *)
Definition set_compress (q : string) (o : options) : options :=
  let 'Build_options st d vc _ b r f ac sp fm _ := o in
  Build_options st d vc (Some q) b r f ac sp fm (Some true).

(** [options['resolution'] = resolution] *)
Definition set_resolution (res : string) (o : options) : options :=
  let 'Build_options st d vc q b _ f ac sp fm c := o in
  Build_options st d vc q b (Some res) f ac sp fm c.

(** The method [compress(input_path, output_path, quality, **options)];
    [quality] is ['medium'] when the caller leaves it out. *)
Definition compress_ (self : t) (input_path output_path quality : string)
    (o : options) : io bool :=
  convert self input_path output_path (set_compress quality o).

(** The method [resize(input_path, output_path, resolution, **options)] *)
Definition resize_ (self : t) (input_path output_path resolution : string)
    (o : options) : io bool :=
  convert self input_path output_path (set_resolution resolution o).

(** [subprocess.CalledProcessError] *)
Definition CalledProcessError : exn := ExternalError "CalledProcessError".

Definition is_CalledProcessError (e : exn) : bool :=
  match e with
  | ExternalError tag => String.eqb tag "CalledProcessError"
  | _ => false
  end.

(** [subprocess.run(cmd, check=True, capture_output=True)]: the process is
    started and awaited as by [run_encoder]; an exit code other than 0
    raises [CalledProcessError]. *)
Definition subprocess_run_check (cmd : list string) : io unit :=
  do returncode <- run_encoder cmd;
  if returncode =? 0 then io_ret tt
  else fun w => (Raise CalledProcessError, w).

(** [try: body  except subprocess.CalledProcessError: handler]: any other
    exception goes on to the caller. *)
Definition try_except_called_process {A} (body : io A) (handler : exn -> io A)
  : io A :=
  fun w => match body w with
           | (Ok a, w') => (Ok a, w')
           | (Raise e, w') =>
               if is_CalledProcessError e then handler e w'
               else (Raise e, w')
           end.

(** The command of [extract_audio], lines 274-281; [ffmpeg] is
    [self.ffmpeg_path]. *)
Definition extract_audio_command (ffmpeg input_path output_path
    audio_format : string) : list string :=
  [ffmpeg; "-i"; input_path; "-vn"; "-acodec";
   if String.eqb audio_format "mp3" then "libmp3lame" else audio_format;
   "-y"; output_path].

(** [extract_audio(input_path, output_path, audio_format)]; [audio_format]
    is ['mp3'] when the caller leaves it out. *)
Definition extract_audio (self : t) (input_path output_path
    audio_format : string) : io bool :=
  match given (ffmpeg_path self) with
  | None => io_ret false
  | Some ffmpeg =>
      try_except_called_process
        (do _ <- subprocess_run_check
                   (extract_audio_command ffmpeg input_path output_path
                      audio_format);
         io_ret true)
        (fun e => io_ret false)
  end.

(** The command of [create_thumbnail], lines 306-313. *)
Definition thumbnail_command (ffmpeg input_path output_path
    timestamp : string) : list string :=
  [ffmpeg; "-i"; input_path; "-ss"; timestamp; "-vframes"; "1"; "-y";
   output_path].

(** [create_thumbnail(input_path, output_path, timestamp)]; [timestamp] is
    ['00:00:01'] when the caller leaves it out. *)
Definition create_thumbnail (self : t) (input_path output_path
    timestamp : string) : io bool :=
  match given (ffmpeg_path self) with
  | None => io_ret false
  | Some ffmpeg =>
      try_except_called_process
        (do _ <- subprocess_run_check
                   (thumbnail_command ffmpeg input_path output_path timestamp);
         io_ret true)
        (fun e => io_ret false)
  end.

End WithPlatform.

(** [get_supported_formats()] *)
Definition get_supported_formats : list string :=
  ["mp4"; "avi"; "mkv"; "webm"; "mov"; "flv"; "m4v"].

End VideoConverter.

(** ** A small simulated platform, on which the model runs *)

Module Sim.

Record image : Type := {
  fmt : option string;
  mode : string;
  size : Z * Z
}.

(** The world: the existing paths and their sizes; a directory has size
    [dir_size]. *)
Definition world : Type := gmap string Z.

Definition dir_size : Z := 4096.

(** A path is refused by the system calls when one of its components is
    longer than 255 characters. *)
Definition name_too_long (p : string) : bool :=
  existsb (fun c => Nat.ltb 255 (String.length c)) (split "/" p).

(** [Path.exists] as up to CPython 3.13: the refusal of the path is
    raised, a missing file is [False]. *)
Definition exists_ (p : string) (w : world) : result bool :=
  if name_too_long p then Raise OSError
  else Ok match w !! p with Some _ => true | None => false end.

Definition mkdir (p : string) (w : world) : result unit * world :=
  if name_too_long p then (Raise OSError, w) else
  match w !! p with
  | Some n => if n =? dir_size then (Ok tt, w) else (Raise OSError, w)
  | None => (Ok tt, <[p := dir_size]> w)
  end.

Definition stat (p : string) (w : world) : result Z :=
  if name_too_long p then Raise OSError else
  match w !! p with Some n => Ok n | None => Raise OSError end.

(** An encoder that writes its last argument when its input is a file. *)
Definition encoder (cmd : list string) (w : world) : result Z * world :=
  match cmd with
  | _ :: _ :: input :: _ =>
      match w !! input with
      | Some n =>
          if n =? dir_size then (Ok 1, w)
          else (Ok 0, <[List.last cmd "" := 2048]> w)
      | None => (Ok 1, w)
      end
  | _ => (Raise OSError, w)
  end.

Definition open (p : string) (w : world) : result image :=
  if name_too_long p then Raise OSError else
  match w !! p with
  | Some n =>
      if n =? dir_size then Raise OSError
      else Ok {| fmt := Some "JPEG"; mode := "RGB"; size := (1600, 1200) |}
  | None => Raise OSError
  end.

Definition save (img : image) (p : string) (f : option string)
    (params : gmap string pyval) (w : world) : result unit * world :=
  if name_too_long p then (Raise OSError, w) else (Ok tt, <[p := 1024]> w).

Definition with_mode (img : image) (m : string) : image :=
  {| fmt := None; mode := m; size := size img |}.

Definition with_size (img : image) (s : Z * Z) : image :=
  {| fmt := None; mode := mode img; size := s |}.

#[export] Instance platform : Platform := {|
  World := world;
  Image := image;
  Pixels := unit;
  path_exists := exists_;
  mkdir_parents := mkdir;
  stat_size := stat;
  run_encoder := encoder;
  image_open := open;
  image_save := save;
  image_format := fmt;
  image_mode := mode;
  image_size := size;
  image_resize := fun img s => Ok (with_size img s);
  image_filter := fun img _ => Ok img;
  image_autocontrast := fun img => Ok img;
  image_convert := fun img m => Ok (with_mode img m);
  image_convert_adaptive := fun img _ => Ok (with_mode img "P");
  image_thumbnail := fun img s => Ok (with_size img s);
  image_last_band := fun img => Ok (with_mode img "L");
  image_scale_band := fun img _ => Ok img;
  image_putalpha := fun img _ => Ok img;
  image_new := fun m s _ => Ok {| fmt := None; mode := m; size := s |};
  image_paste := fun dst _ _ _ => Ok dst;
  image_paste_inplace := fun dst _ _ _ => (dst, None);
  image_getdata := fun _ => Ok tt;
  image_putdata := fun img _ => Ok img
|}.

(** A world with one photograph and one film. *)
Definition sample_world : world :=
  <["photo.jpg" := 500000]> (<["clip.mov" := 9000000]> ∅).

Fixpoint repeat_char (c : ascii) (n : nat) : string :=
  match n with
  | O => EmptyString
  | S n' => String c (repeat_char c n')
  end.

(** A file name of 256 characters, with a suffix that both converters
    take. *)
Definition long_name (suffix : string) : string :=
  repeat_char "a" 252 ++ suffix.

End Sim.

(** ** Vocabulary of the statements *)

(** [a] immediately followed by [b] in [l]. *)
Definition adjacent {A} (a b : A) (l : list A) : Prop :=
  exists pre post, l = (pre ++ a :: b :: post)%list.

Fixpoint all_digits (s : string) : bool :=
  match s with
  | EmptyString => true
  | String c r => is_digit c && all_digits r
  end.

Section CommandVocabulary.
Import VideoConverter.

(** The words that the builder itself writes, the quality block apart. *)
Definition fixed_words : list string :=
  ["-i"; "-ss"; "-t"; "-c:v"; "libx264"; "libx265"; "libvpx-vp9";
   "libaom-av1"; "-b:v"; "-vf"; "-r"; "-an"; "-c:a"; "aac"; "libmp3lame";
   "libopus"; "-preset"; "medium"; "-movflags"; "+faststart"; "-y"].

(** A [shutil.which] that finds the encoder at [path] and nothing else. *)
Definition encoder_at (path : string) (tool : string) : option string :=
  if String.eqb tool "ffmpeg" then Some path else None.

(** Option sets used in the statements. *)
Definition h265_720p : options := {|
  start_time := None; duration := None; video_codec := Some "h265";
  quality := None; bitrate := None; resolution := Some "1280x720";
  fps := Some 30; audio_codec := Some "none"; speed_preset := None;
  format := None; compress := None |}.

Definition with_quality (q : string) : options := {|
  start_time := None; duration := None; video_codec := None;
  quality := Some q; bitrate := None; resolution := None;
  fps := None; audio_codec := None; speed_preset := None;
  format := None; compress := None |}.

Definition av1_high : options := {|
  start_time := None; duration := None; video_codec := Some "av1";
  quality := Some "high"; bitrate := Some "2M"; resolution := None;
  fps := Some 24; audio_codec := None; speed_preset := None;
  format := Some "mkv"; compress := None |}.

Definition image_with_quality (q : pyval) : ImageConverter.options :=
  ImageConverter.Build_options None None (Some q) None None None None None
    None None None None None None None.

End CommandVocabulary.

(** The options [o] with the [watermark] key removed, and the options
    that hold a watermark path and nothing else. *)
Definition without_watermark (o : ImageConverter.options) : ImageConverter.options :=
  let 'ImageConverter.Build_options f r q c op pr sm sh bl br ae _ wp wo ws := o in
  ImageConverter.Build_options f r q c op pr sm sh bl br ae None wp wo ws.

Definition with_watermark (path : string) : ImageConverter.options :=
  ImageConverter.Build_options None None None None None None None None None
    None None (Some path) None None None.

(** The existence test answers for each of the paths [input_files], in
    every world: it does not raise. *)
Definition exists_answers `{Platform} (input_files : list string) : Prop :=
  forall f, f ∈ input_files ->
  forall w, exists found,
    path_exists (PurePath.to_str (PurePath.of_str f)) w = Ok found.

(** What the batch loop records for the input [f], reached in the world
    [w_f]: a missing file is recorded as a failure and [process] is not
    called for it; otherwise [process] is called, in [w_f], and its return
    value is recorded. *)
Definition entry_of `{Platform} (process : PurePath.t -> io bool)
    (results : gmap string bool) (calls : list string) (f : string)
    (w_f : World) : Prop :=
  match path_exists (PurePath.to_str (PurePath.of_str f)) w_f with
  | Ok true => f ∈ calls ∧
               ∃ r w'', process (PurePath.of_str f) w_f = (Ok r, w'') ∧
                        results !! f = Some r
  | Ok false => (f ∉ calls) ∧ results !! f = Some false
  | Raise _ => False
  end.

(** The outcome of a batch started in [w0], after the output directory
    was made: one entry per input, calls in the order of the inputs, and
    each input treated as [entry_of] says, in the world left by the loop
    over the inputs before it. *)
Definition batch_outcome `{Platform} (process : PurePath.t -> io bool)
    (input_files : list string) (w0 : World)
    (results : gmap string bool) (calls : list string) : Prop :=
  size results = length input_files /\
  (forall f, f ∈ input_files <-> is_Some (results !! f)) /\
  sublist calls input_files /\
  forall pre f post,
    input_files = (pre ++ f :: post)%list ->
    exists results_f calls_f w_f,
      Batch.loop_traced process pre ∅ [] w0 = (Ok (results_f, calls_f), w_f) /\
      entry_of process results calls f w_f.

(** The reading of the batch property in which the missing files are those
    missing from the world [w] in which the batch is started. *)
Definition missing_inputs_skipped `{Platform} (input_files : list string)
    (w : World) (outcome : result (gmap string bool * list string) * World)
  : Prop :=
  exists results calls w',
    outcome = (Ok (results, calls), w') /\
    size results = length input_files /\
    forall f, f ∈ input_files ->
      path_exists (PurePath.to_str (PurePath.of_str f)) w = Ok false ->
      results !! f = Some false /\ (f ∉ calls).

(** The number written by the digits [s], read after digits of value
    [acc]. *)
Fixpoint dec_value (s : string) (acc : Z) : Z :=
  match s with
  | EmptyString => acc
  | String c r => dec_value r (10 * acc + digit_val c)
  end.



(** * Properties *)

(** ** Strings *)

Section StringFacts.

Lemma endswith_char_app (c : ascii) (s : string) :
  endswith_char c (s ++ String c "") = true.
Proof.
  induction s as [|d s IH]; simpl.
  - apply Ascii.eqb_refl.
  - destruct s; simpl in *; exact IH.
Qed.

Lemma drop_last_app (c : ascii) (s : string) :
  drop_last (s ++ String c "") = s.
Proof.
  induction s as [|d s IH]; simpl; [reflexivity|].
  destruct s; simpl in *; [reflexivity|].
  now rewrite IH.
Qed.


Lemma endswith_char_last (c d : ascii) (s : string) :
  endswith_char c (s ++ String d "") = Ascii.eqb c d.
Proof.
  induction s as [|a s IH]; simpl; [reflexivity|].
  destruct s; simpl in *; exact IH.
Qed.

Lemma endswith_char_absent (c : ascii) (s : string) :
  contains_char c s = false -> endswith_char c s = false.
Proof.
  induction s as [|a s IH]; simpl; [reflexivity|].
  intros [Ha Hs]%orb_false_iff. destruct s; [exact Ha | now apply IH].
Qed.

Lemma split_absent (c : ascii) (s : string) :
  contains_char c s = false -> Py.split c s = [s].
Proof.
  induction s as [|a s IH]; simpl; [reflexivity|].
  intros [Ha Hs]%orb_false_iff. rewrite Ha, (IH Hs). reflexivity.
Qed.

Lemma split_last (c : ascii) (s : string) :
  contains_char c s = false -> Py.split c (s ++ String c "") = [s; ""].
Proof.
  induction s as [|a s IH]; simpl.
  - now rewrite Ascii.eqb_refl.
  - intros [Ha Hs]%orb_false_iff. rewrite Ha, (IH Hs). reflexivity.
Qed.

Lemma digit_lower (c : ascii) : is_digit c = true -> lower_char c = c.
Proof.
  unfold is_digit, lower_char. intros [H1 H2]%andb_true_iff.
  apply N.leb_le in H2.
  destruct (65 <=? code c)%N eqn:H3; [|reflexivity].
  apply N.leb_le in H3. lia.
Qed.

Lemma digit_not_x (c : ascii) : is_digit c = true -> Ascii.eqb "x" c = false.
Proof.
  intros Hd. apply Ascii.eqb_neq. intros <-. discriminate.
Qed.

Lemma digits_lower (d : string) : all_digits d = true -> lower d = d.
Proof.
  induction d as [|c d IH]; cbn [all_digits lower]; [reflexivity|].
  intros [Hc Hd]%andb_true_iff. now rewrite (digit_lower c Hc), (IH Hd).
Qed.

Lemma digits_no_x (d : string) : all_digits d = true -> contains_char "x" d = false.
Proof.
  induction d as [|c d IH]; cbn [all_digits contains_char]; [reflexivity|].
  intros [Hc Hd]%andb_true_iff. now rewrite (digit_not_x c Hc), (IH Hd).
Qed.

Lemma digits_no_percent (d : string) :
  all_digits d = true -> contains_char "%" d = false.
Proof.
  induction d as [|c d IH]; cbn [all_digits contains_char]; [reflexivity|].
  intros [Hc Hd]%andb_true_iff. rewrite (IH Hd), orb_false_r.
  apply Ascii.eqb_neq. intros <-. discriminate.
Qed.

Lemma lower_app (s t : string) : lower (s ++ t) = lower s ++ lower t.
Proof. induction s as [|c s IH]; simpl; [reflexivity | now rewrite IH]. Qed.

Lemma contains_char_app (c : ascii) (s t : string) :
  contains_char c (s ++ t) = contains_char c s || contains_char c t.
Proof.
  induction s as [|a s IH]; simpl; [reflexivity|].
  now rewrite IH, orb_assoc.
Qed.

End StringFacts.

(** ** The resize parser *)

Section ParseResize.
Import ImageConverter.

(** C1 (the code departs from the claim).  When one side of an
    [x]-separated resize spec is empty, [_parse_resize] does not derive it
    from the aspect ratio of the source: for every run of digits [d] and
    every original size, the spec [d ++ "x"] yields the width [int(d)] with
    the original height unchanged, and the spec ["x" ++ d] yields the
    height [int(d)] with the original width unchanged.  For the original
    size 1600 x 1200, ["x600"] gives 1600 x 600 and ["800x"] gives
    800 x 1200, where the aspect ratio asks for 800 x 600. *)
Theorem parse_resize_empty_side_keeps_original (d : string) (w0 h0 : Z) :
  all_digits d = true -> d <> "" ->
  _parse_resize (d ++ "x") (w0, h0) = (n ← int_of_str d; Ok (n, h0)) /\
  _parse_resize ("x" ++ d) (w0, h0) = (n ← int_of_str d; Ok (w0, n)).
Proof.
  intros Hd Hne.
  assert (truthy d = true) as Ht by (destruct d; [congruence | reflexivity]).
  pose proof (digits_lower d Hd) as Hl.
  pose proof (digits_no_x d Hd) as Hx.
  split; unfold _parse_resize.
  - rewrite endswith_char_last. change (Ascii.eqb "%" "x") with false.
    rewrite lower_app, Hl. change (lower "x") with "x".
    rewrite contains_char_app, Hx. change (contains_char "x" "x") with true.
    cbn [orb]. rewrite (split_last "x" d Hx). cbn [part nth]. rewrite Ht.
    cbn [truthy]. destruct (int_of_str d); reflexivity.
  - rewrite (endswith_char_absent "%" ("x" ++ d))
      by (apply (digits_no_percent d Hd)).
    change (lower ("x" ++ d)) with (String "x" (lower d)). rewrite Hl.
    change (contains_char "x" (String "x" d)) with true.
    change (Py.split "x" (String "x" d)) with ("" :: Py.split "x" d).
    rewrite (split_absent "x" d Hx). cbn [part nth truthy]. rewrite Ht.
    destruct (int_of_str d); reflexivity.
Qed.

Lemma parse_resize_empty_side_keeps_original_witness :
  _parse_resize "x600" (1600, 1200) = Ok (1600, 600) /\
  _parse_resize "800x" (1600, 1200) = Ok (800, 1200) /\
  1600 * 600 / 1200 = 800.
Proof.
  destruct (parse_resize_empty_side_keeps_original "600" 1600 1200 eq_refl
              ltac:(discriminate)) as [_ H600].
  destruct (parse_resize_empty_side_keeps_original "800" 1600 1200 eq_refl
              ltac:(discriminate)) as [H800 _].
  split; [exact H600 | split; [exact H800 | reflexivity]].
Defined.

(** C7, counterexample.  ["29%"] of a 100 x 100 image is 28 x 28: the
    quotient [29 / 100] is rounded to a double below 0.29, so the product
    is below 29 and truncates to 28, while [floor (100 * 29 / 100) = 29]. *)
Lemma parse_resize_29_percent_of_100 :
  _parse_resize "29%" (100, 100) = Ok (28, 28) /\
  _parse_resize "29%" (100, 100) <> Ok (100 * 29 / 100, 100 * 29 / 100).
Proof. split; [vm_compute; reflexivity | vm_compute; discriminate]. Qed.

(** C7, as amended.  For a spec [s ++ "%"] whose numeric part [s] is
    accepted by [float], the parser returns
    [(int(w * (p / 100)), int(h * (p / 100)))], where the quotient and the
    two products are binary64 operations, each rounded to nearest, and
    [int] truncates. *)
Theorem parse_resize_percentage (s : string) (p : float) (w h : Z) :
  float_of_str s = Ok p ->
  _parse_resize (s ++ "%") (w, h) =
    (w' ← scale_int w (fdiv p float_100);
     h' ← scale_int h (fdiv p float_100);
     Ok (w', h')).
Proof.
  intros Hp. unfold _parse_resize.
  rewrite endswith_char_app, drop_last_app, Hp. reflexivity.
Qed.

Lemma parse_resize_percentage_witness :
  float_of_str "50" = Ok (round_Z 50) /\
  _parse_resize "50%" (1600, 1200) = Ok (800, 600).
Proof.
  split; [vm_compute; reflexivity|].
  change (_parse_resize ("50" ++ "%") (1600, 1200) = Ok (800, 600)).
  rewrite (parse_resize_percentage "50" (round_Z 50) 1600 1200)
    by (vm_compute; reflexivity).
  vm_compute; reflexivity.
Defined.




End ParseResize.

(** ** Quality and save parameters of the image converter *)

Section SaveOptions.
Import ImageConverter.

(** C6, counterexample.  With no [optimize] option, the save parameters
    of a JPEG carry [optimize = True]. *)
Lemma save_options_optimize_unset_jpeg :
  optimize no_options = None /\
  prepare_save_options (Some "JPEG") (resolve_quality init no_options) no_options
    !! "optimize" = Some (VBool true) /\
  prepare_save_options (Some "JPEG") (resolve_quality init no_options) no_options
    !! "optimize" <> Some (VBool false).
Proof. repeat split; vm_compute; congruence. Qed.

(** C6, as amended.  When the [optimize] option is unset, the save
    parameters assembled for a JPEG, PNG or WebP target carry the optimize
    flag [True]. *)
Theorem save_options_optimize_default (format_name : option string)
    (quality : pyval) (o : options) :
  optimize o = None ->
  format_name ∈ [Some "JPEG"; Some "PNG"; Some "WebP"] ->
  prepare_save_options format_name quality o !! "optimize" = Some (VBool true).
Proof.
  intros Hopt Hfmt. unfold prepare_save_options. rewrite Hopt.
  repeat (apply elem_of_cons in Hfmt as [-> | Hfmt]);
    [ | | | by apply elem_of_nil in Hfmt ]; simpl.
  - destruct (flag (progressive o)).
    + rewrite lookup_insert_ne by done. apply lookup_insert_eq.
    + apply lookup_insert_eq.
  - apply lookup_insert_eq.
  - apply lookup_insert_eq.
Qed.

Lemma save_options_optimize_default_witness :
  prepare_save_options (Some "PNG") (VInt 85) no_options !! "optimize"
  = Some (VBool true).
Proof.
  apply (save_options_optimize_default (Some "PNG") (VInt 85) no_options).
  - reflexivity.
  - apply list_elem_of_In. simpl. tauto.
Defined.

End SaveOptions.

(** ** Integers and their decimal text *)

Section Numbers.

Lemma digit_char_is_digit (a : Z) :
  is_digit (ascii_of_N (Z.to_N (48 + a mod 10))) = true.
Proof.
  pose proof (Z.mod_pos_bound a 10 eq_refl) as Hb.
  assert (a mod 10 = 0 \/ a mod 10 = 1 \/ a mod 10 = 2 \/ a mod 10 = 3 \/
          a mod 10 = 4 \/ a mod 10 = 5 \/ a mod 10 = 6 \/ a mod 10 = 7 \/
          a mod 10 = 8 \/ a mod 10 = 9) as Hc by lia.
  repeat (destruct Hc as [-> | Hc]; [reflexivity|]). now rewrite Hc.
Qed.

Lemma pos_digits_all_digits (fuel : nat) (a : Z) (acc : string) :
  all_digits acc = true -> all_digits (pos_digits fuel a acc) = true.
Proof.
  revert a acc. induction fuel as [|fuel IH]; intros a acc Hacc; simpl; [exact Hacc|].
  assert (all_digits (String (ascii_of_N (Z.to_N (48 + a mod 10))) acc) = true) as H'.
  { simpl. now rewrite digit_char_is_digit, Hacc. }
  destruct (a <? 10); [exact H' | now apply IH].
Qed.

(** The decimal text is a run of digits, after a minus sign when [n < 0]. *)
Lemma decimal_shape (n : Z) :
  exists d, all_digits d = true /\ (decimal n = d \/ decimal n = String "-" d).
Proof.
  unfold decimal.
  exists (pos_digits (S (Z.to_nat (Z.log2 (Z.abs n)))) (Z.abs n) "").
  split; [now apply pos_digits_all_digits|].
  destruct (n <? 0); auto.
Qed.

Lemma decimal_not_flag (n : Z) (c : ascii) (r : string) :
  is_digit c = false -> decimal n <> String "-" (String c r).
Proof.
  intros Hc Heq. destruct (decimal_shape n) as (d & Hd & [H1 | H1]);
    rewrite H1 in Heq.
  - subst d. discriminate.
  - injection Heq as ->. simpl in Hd. now rewrite Hc in Hd.
Qed.

Lemma digit_val_of_digit (a : Z) :
  digit_val (ascii_of_N (Z.to_N (48 + a mod 10))) = a mod 10.
Proof.
  pose proof (Z.mod_pos_bound a 10 eq_refl) as Hb.
  assert (a mod 10 = 0 \/ a mod 10 = 1 \/ a mod 10 = 2 \/ a mod 10 = 3 \/
          a mod 10 = 4 \/ a mod 10 = 5 \/ a mod 10 = 6 \/ a mod 10 = 7 \/
          a mod 10 = 8 \/ a mod 10 = 9) as Hc by lia.
  repeat (destruct Hc as [-> | Hc]; [reflexivity|]). now rewrite Hc.
Qed.

Lemma pos_digits_value (fuel : nat) (a : Z) (acc : string) :
  0 <= a < 10 ^ Z.of_nat fuel ->
  dec_value (pos_digits fuel a acc) 0 = dec_value acc a.
Proof.
  revert a acc. induction fuel as [|fuel IH]; intros a acc Ha.
  - cbn in Ha. assert (a = 0) as -> by lia. reflexivity.
  - cbn [pos_digits]. destruct (a <? 10) eqn:Hlt.
    + apply Z.ltb_lt in Hlt. cbn [dec_value].
      rewrite digit_val_of_digit, Z.mod_small by lia. reflexivity.
    + apply Z.ltb_ge in Hlt. rewrite IH.
      * cbn [dec_value]. rewrite digit_val_of_digit.
        f_equal. pose proof (Z.div_mod a 10). lia.
      * rewrite Nat2Z.inj_succ, Z.pow_succ_r in Ha by lia.
        split; [apply Z.div_pos; lia|].
        apply Z.div_lt_upper_bound; lia.
Qed.

Lemma digits_us_value (s : string) (acc : Z) :
  all_digits s = true ->
  digits_us s acc true = Some (dec_value s acc).
Proof.
  revert acc. induction s as [|c s IH]; intros acc; cbn [all_digits digits_us dec_value];
    [reflexivity|].
  intros [Hc Hs]%andb_true_iff. rewrite Hc. now apply IH.
Qed.

Lemma log2_fuel (a : Z) : 0 <= a -> a < 10 ^ Z.of_nat (S (Z.to_nat (Z.log2 a))).
Proof.
  intros Ha. rewrite Nat2Z.inj_succ, Z2Nat.id by apply Z.log2_nonneg.
  destruct (Z.eq_dec a 0) as [->|Hne]; [reflexivity|].
  pose proof (Z.log2_spec a ltac:(lia)) as [_ Hlt].
  eapply Z.lt_le_trans; [exact Hlt|].
  apply Z.pow_le_mono_l. pose proof (Z.log2_nonneg a). lia.
Qed.

Lemma pos_digits_cons (fuel : nat) (a : Z) (acc : string) :
  exists c r, pos_digits (S fuel) a acc = String c r /\ is_digit c = true.
Proof.
  revert a acc. induction fuel as [|fuel IH]; intros a acc.
  - cbn [pos_digits]. destruct (a <? 10); eexists _, _;
      (split; [reflexivity | apply digit_char_is_digit]).
  - change (pos_digits (S (S fuel)) a acc) with
      (let acc' := String (ascii_of_N (Z.to_N (48 + a mod 10))) acc in
       if a <? 10 then acc' else pos_digits (S fuel) (a / 10) acc').
    cbv zeta. destruct (a <? 10).
    + eexists _, _. split; [reflexivity | apply digit_char_is_digit].
    + apply IH.
Qed.

(** The decimal text of [a >= 0]: a non-empty run of digits that reads [a]. *)
Lemma decimal_nonneg (a : Z) :
  0 <= a ->
  exists c r, pos_digits (S (Z.to_nat (Z.log2 a))) a "" = String c r /\
              all_digits (String c r) = true /\
              dec_value (String c r) 0 = a.
Proof.
  intros Ha.
  destruct (pos_digits_cons (Z.to_nat (Z.log2 a)) a "") as (c & r & Heq & Hc).
  exists c, r. split; [exact Heq|]. rewrite <- Heq. split.
  - now apply pos_digits_all_digits.
  - rewrite pos_digits_value by (split; [lia | now apply log2_fuel]). reflexivity.
Qed.

Lemma digit_not_space (c : ascii) : is_digit c = true -> is_space c = false.
Proof.
  unfold is_digit, is_space. intros [H1 H2]%andb_true_iff.
  apply N.leb_le in H1. apply N.leb_le in H2.
  apply orb_false_iff. split.
  - apply N.eqb_neq. lia.
  - apply andb_false_iff. right. apply N.leb_gt. lia.
Qed.

Lemma rstrip_digits (s : string) :
  all_digits s = true -> rstrip_with is_space s = s.
Proof.
  induction s as [|c s IH]; cbn [all_digits rstrip_with]; [reflexivity|].
  intros [Hc Hs]%andb_true_iff. rewrite (IH Hs), (digit_not_space c Hc).
  now destruct s.
Qed.

Lemma count_digits_nonneg (s : string) : 0 <= count_digits s.
Proof.
  induction s as [|c s IH]; cbn [count_digits]; [lia|].
  destruct (is_digit c); lia.
Qed.

Lemma count_digits_all_digits (d : string) :
  all_digits d = true -> count_digits d = Z.of_nat (String.length d).
Proof.
  induction d as [|c d IH]; cbn [all_digits count_digits String.length];
    [reflexivity|].
  intros [Hc Hd]%andb_true_iff. rewrite Hc, (IH Hd). lia.
Qed.

(** The digits of the decimal text of [n]: the sign does not count. *)
Lemma count_digits_decimal (n : Z) :
  count_digits (decimal n)
  = count_digits (pos_digits (S (Z.to_nat (Z.log2 (Z.abs n)))) (Z.abs n) "").
Proof.
  unfold decimal. destruct (n <? 0); [|reflexivity].
  reflexivity.
Qed.

(** A number below [10 ^ k] is written with at most [k] digits. *)
Lemma pos_digits_count (fuel : nat) (a k : Z) (acc : string) :
  0 <= a < 10 ^ k -> 1 <= k ->
  count_digits (pos_digits fuel a acc) <= k + count_digits acc.
Proof.
  revert a k acc. induction fuel as [|fuel IH]; intros a k acc Ha Hk;
    cbn [pos_digits]; [lia|].
  assert (count_digits (String (ascii_of_N (Z.to_N (48 + a mod 10))) acc)
          = 1 + count_digits acc) as Hacc.
  { cbn [count_digits]. now rewrite digit_char_is_digit. }
  destruct (a <? 10) eqn:Hlt; [lia|].
  apply Z.ltb_ge in Hlt.
  assert (2 <= k) as Hk2.
  { destruct (Z.eq_dec k 1) as [-> | Hne]; [|lia]. change (10 ^ 1) with 10 in Ha. lia. }
  specialize (IH (a / 10) (k - 1)
                (String (ascii_of_N (Z.to_N (48 + a mod 10))) acc)).
  rewrite Hacc in IH.
  assert (0 <= a / 10 < 10 ^ (k - 1)) as Hdiv.
  { split; [apply Z.div_pos; lia|].
    apply Z.div_lt_upper_bound; [lia|].
    rewrite <- Z.pow_succ_r by lia. replace (Z.succ (k - 1)) with k by lia. lia. }
  specialize (IH Hdiv ltac:(lia)). lia.
Qed.

Lemma digit_val_bounds (c : ascii) : is_digit c = true -> 0 <= digit_val c <= 9.
Proof.
  unfold is_digit, digit_val. intros [H1 H2]%andb_true_iff.
  apply N.leb_le in H1. apply N.leb_le in H2. lia.
Qed.

(** A text that [int] reads has a digit, and its value is below the power
    of ten of its number of digits. *)
Lemma digits_us_bound (s : string) (acc : Z) (prev : bool) (v : Z) :
  digits_us s acc prev = Some v -> 0 <= acc ->
  0 <= v < (acc + 1) * 10 ^ count_digits s.
Proof.
  revert acc prev. induction s as [|c s IH]; intros acc prev;
    cbn [digits_us count_digits].
  - destruct prev; [|discriminate]. intros [= <-] Hacc.
    change (10 ^ 0) with 1. lia.
  - destruct (is_digit c) eqn:Hc.
    + intros Hv Hacc. pose proof (digit_val_bounds c Hc) as Hd.
      specialize (IH _ _ Hv ltac:(lia)).
      pose proof (count_digits_nonneg s) as Hn.
      rewrite Z.pow_add_r by lia. change (10 ^ 1) with 10.
      assert (0 < 10 ^ count_digits s) as Hp by (apply Z.pow_pos_nonneg; lia).
      nia.
    + destruct (Ascii.eqb c "_"); [|discriminate].
      destruct prev; [|discriminate].
      intros Hv Hacc. rewrite Z.add_0_l. exact (IH _ _ Hv Hacc).
Qed.

Lemma digits_us_has_digit (s : string) (acc v : Z) :
  digits_us s acc false = Some v -> 1 <= count_digits s.
Proof.
  destruct s as [|c s]; cbn [digits_us count_digits]; [discriminate|].
  destruct (is_digit c).
  - intros _. pose proof (count_digits_nonneg s). lia.
  - destruct (Ascii.eqb c "_"); discriminate.
Qed.

(** What [str] returns is the decimal text, of at most
    [int_max_str_digits] digits. *)
Lemma str_of_int_Ok (n : Z) (s : string) :
  str_of_int n = Ok s ->
  s = decimal n /\ count_digits (decimal n) <= int_max_str_digits.
Proof.
  unfold str_of_int.
  destruct (int_max_str_digits <? count_digits (decimal n)) eqn:E; [discriminate|].
  apply Z.ltb_ge in E. intros [= <-]. split; [reflexivity | exact E].
Qed.

Lemma str_of_int_short (n : Z) :
  count_digits (decimal n) <= int_max_str_digits -> str_of_int n = Ok (decimal n).
Proof.
  intros Hn. unfold str_of_int.
  now destruct (Z.ltb_spec int_max_str_digits (count_digits (decimal n))); [lia|].
Qed.

(** [str] raises only [ValueError]. *)
Lemma str_of_int_error (n : Z) (e : exn) : str_of_int n = Raise e -> e = ValueError.
Proof.
  unfold str_of_int.
  destruct (int_max_str_digits <? count_digits (decimal n)); congruence.
Qed.

(** [str(n)] is written for every [n] of at most [int_max_str_digits]
    digits. *)
Lemma str_of_int_in_range (n : Z) :
  Z.abs n < 10 ^ int_max_str_digits -> str_of_int n = Ok (decimal n).
Proof.
  intros Hn. apply str_of_int_short. rewrite count_digits_decimal.
  pose proof (pos_digits_count (S (Z.to_nat (Z.log2 (Z.abs n)))) (Z.abs n)
                int_max_str_digits "" ltac:(lia) ltac:(unfold int_max_str_digits; lia))
    as Hc.
  cbn [count_digits] in Hc. lia.
Qed.

(** The value of a run of digits is below the power of ten of its
    length. *)
Lemma dec_value_bound (s : string) (acc : Z) :
  all_digits s = true -> 0 <= acc ->
  dec_value s acc < (acc + 1) * 10 ^ count_digits s.
Proof.
  revert acc. induction s as [|c s IH]; intros acc;
    cbn [all_digits dec_value count_digits].
  - intros _ Hacc. change (10 ^ 0) with 1. lia.
  - intros [Hc Hs]%andb_true_iff Hacc. rewrite Hc.
    pose proof (digit_val_bounds c Hc) as Hd.
    specialize (IH (10 * acc + digit_val c) Hs ltac:(lia)).
    pose proof (count_digits_nonneg s) as Hn.
    rewrite Z.pow_add_r by lia. change (10 ^ 1) with 10.
    assert (0 < 10 ^ count_digits s) as Hp by (apply Z.pow_pos_nonneg; lia).
    nia.
Qed.

(** [str(n)] raises for every [n] of more than [int_max_str_digits]
    digits. *)
Lemma str_of_int_out_of_range (n : Z) :
  10 ^ int_max_str_digits <= Z.abs n -> str_of_int n = Raise ValueError.
Proof.
  intros Hn. unfold str_of_int.
  destruct (Z.ltb_spec int_max_str_digits (count_digits (decimal n)))
    as [Hlong | Hshort]; [reflexivity|].
  exfalso. rewrite count_digits_decimal in Hshort.
  destruct (decimal_nonneg (Z.abs n) (Z.abs_nonneg n)) as (c & r & Heq & Hd & Hv).
  rewrite Heq in Hshort.
  pose proof (dec_value_bound (String c r) 0 Hd ltac:(lia)) as Hb.
  rewrite Hv in Hb.
  pose proof (count_digits_nonneg (String c r)) as Hc.
  pose proof (Z.pow_le_mono_r 10 (count_digits (String c r)) int_max_str_digits
                ltac:(lia) Hshort) as Hpow.
  lia.
Qed.

Lemma str_of_int_raises_iff (n : Z) (e : exn) :
  str_of_int n = Raise e <->
  e = ValueError /\ 10 ^ int_max_str_digits <= Z.abs n.
Proof.
  split.
  - intros Hn. split; [exact (str_of_int_error n e Hn)|].
    destruct (Z.le_gt_cases (10 ^ int_max_str_digits) (Z.abs n)) as [Hle | Hlt];
      [exact Hle|].
    rewrite (str_of_int_in_range n Hlt) in Hn. discriminate.
  - intros [-> Hn]. now apply str_of_int_out_of_range.
Qed.

(** [int] of a decimal text: the number, unless the text is too long. *)
Lemma int_of_str_decimal_eq (n : Z) :
  int_of_str (decimal n) =
  if int_max_str_digits <? count_digits (decimal n) then Raise ValueError
  else Ok n.
Proof.
  rewrite count_digits_decimal. unfold decimal.
  destruct (decimal_nonneg (Z.abs n) (Z.abs_nonneg n)) as (c & r & Heq & Hd & Hv).
  rewrite Heq.
  pose proof Hd as Hd'. cbn [all_digits] in Hd'.
  apply andb_true_iff in Hd' as [Hc Hr].
  destruct (n <? 0) eqn:Hneg; unfold int_of_str, strip_space.
  - apply Z.ltb_lt in Hneg.
    change (lstrip_with is_space (String "-" (String c r))) with
      (String "-" (String c r)).
    change (rstrip_with is_space (String "-" (String c r))) with
      (match rstrip_with is_space (String c r) with
       | EmptyString => String "-" EmptyString
       | r' => String "-" r'
       end).
    rewrite (rstrip_digits _ Hd). cbn [split_sign].
    cbn [digits_us]. rewrite Hc.
    rewrite (digits_us_value r _ Hr).
    cbn [dec_value] in Hv. rewrite Hv.
    destruct (int_max_str_digits <? count_digits (String c r)); [reflexivity|].
    f_equal. lia.
  - apply Z.ltb_ge in Hneg.
    cbn [lstrip_with]. rewrite (digit_not_space c Hc).
    rewrite (rstrip_digits _ Hd).
    assert (split_sign (String c r) = (false, String c r)) as ->.
    { unfold split_sign.
      destruct c as [[] [] [] [] [] [] [] []]; try reflexivity; discriminate. }
    cbn [digits_us]. rewrite Hc.
    rewrite (digits_us_value r _ Hr).
    cbn [dec_value] in Hv. rewrite Hv.
    destruct (int_max_str_digits <? count_digits (String c r)); [reflexivity|].
    f_equal. lia.
Qed.

Lemma int_of_str_decimal (n : Z) :
  count_digits (decimal n) <= int_max_str_digits ->
  int_of_str (decimal n) = Ok n.
Proof.
  intros Hlen. rewrite int_of_str_decimal_eq.
  now destruct (Z.ltb_spec int_max_str_digits (count_digits (decimal n))); [lia|].
Qed.

Lemma int_of_str_decimal_inv (n m : Z) :
  int_of_str (decimal n) = Ok m -> m = n.
Proof.
  rewrite int_of_str_decimal_eq.
  destruct (int_max_str_digits <? count_digits (decimal n)); congruence.
Qed.

(** [int(str(n)) == n] *)
Lemma int_of_str_of_int (n : Z) (s : string) :
  str_of_int n = Ok s -> int_of_str s = Ok n.
Proof.
  intros [-> Hlen]%str_of_int_Ok. now apply int_of_str_decimal.
Qed.

(** An integer that [int] has read can be written by [str]. *)
Lemma int_of_str_writable (s : string) (n : Z) :
  int_of_str s = Ok n -> str_of_int n = Ok (decimal n).
Proof.
  unfold int_of_str. destruct (split_sign (strip_space s)) as [neg body].
  destruct (digits_us body 0 false) as [m|] eqn:Hm; [|discriminate].
  destruct (int_max_str_digits <? count_digits body) eqn:Hlim; [discriminate|].
  apply Z.ltb_ge in Hlim. intros [= <-].
  pose proof (digits_us_bound _ _ _ _ Hm ltac:(lia)) as Hb.
  pose proof (digits_us_has_digit _ _ _ Hm) as H1.
  apply str_of_int_short. rewrite count_digits_decimal.
  assert (Z.abs (if neg then - m else m) = m) as -> by (destruct neg; lia).
  pose proof (pos_digits_count (S (Z.to_nat (Z.log2 m))) m (count_digits body) ""
                ltac:(lia) H1) as Hc.
  cbn [count_digits] in Hc. lia.
Qed.

End Numbers.

Section NumberStrings.

Lemma append_nil_l (s : string) : "" ++ s = s.
Proof. reflexivity. Qed.

Lemma append_cons (c : ascii) (s t : string) :
  String c s ++ t = String c (s ++ t).
Proof. reflexivity. Qed.

Lemma split_app_sep (c : ascii) (a b : string) :
  contains_char c a = false ->
  Py.split c (a ++ String c b) = a :: Py.split c b.
Proof.
  induction a as [|d a IH].
  - intros _. rewrite append_nil_l. cbn [Py.split]. now rewrite Ascii.eqb_refl.
  - rewrite append_cons. cbn [contains_char]. intros [Hd Ha]%orb_false_iff.
    cbn [Py.split]. rewrite Hd, (IH Ha). reflexivity.
Qed.

Lemma endswith_char_app_cons (c d : ascii) (s t : string) :
  endswith_char c (s ++ String d t) = endswith_char c (String d t).
Proof.
  induction s as [|a s IH]; [reflexivity|].
  rewrite append_cons, <- IH.
  destruct s; reflexivity.
Qed.

Lemma decimal_lower (n : Z) : lower (decimal n) = decimal n.
Proof.
  destruct (decimal_shape n) as (d & Hd & [-> | ->]).
  - now apply digits_lower.
  - cbn [lower]. now rewrite (digits_lower d Hd).
Qed.

Lemma decimal_no_x (n : Z) : contains_char "x" (decimal n) = false.
Proof.
  destruct (decimal_shape n) as (d & Hd & [-> | ->]).
  - now apply digits_no_x.
  - cbn [contains_char]. now rewrite (digits_no_x d Hd).
Qed.

Lemma decimal_no_percent (n : Z) : contains_char "%" (decimal n) = false.
Proof.
  destruct (decimal_shape n) as (d & Hd & [-> | ->]).
  - now apply digits_no_percent.
  - cbn [contains_char]. now rewrite (digits_no_percent d Hd).
Qed.

Lemma decimal_truthy (n : Z) : truthy (decimal n) = true.
Proof.
  unfold decimal.
  destruct (decimal_nonneg (Z.abs n) (Z.abs_nonneg n)) as (c & r & -> & _).
  now destruct (n <? 0).
Qed.

(** The text [W x H] in decimal. *)
Lemma dims_lower (W H : Z) :
  lower (decimal W ++ "x" ++ decimal H)
  = decimal W ++ "x" ++ decimal H.
Proof.
  rewrite !lower_app, !decimal_lower. reflexivity.
Qed.

Lemma dims_split (W H : Z) :
  Py.split "x" (decimal W ++ "x" ++ decimal H)
  = [decimal W; decimal H].
Proof.
  change (decimal W ++ "x" ++ decimal H)
    with (decimal W ++ String "x" (decimal H)).
  rewrite (split_app_sep "x" _ _ (decimal_no_x W)).
  now rewrite (split_absent "x" _ (decimal_no_x H)).
Qed.

Lemma dims_contains_x (W H : Z) :
  contains_char "x" (decimal W ++ "x" ++ decimal H) = true.
Proof.
  rewrite contains_char_app, append_cons. cbn [contains_char].
  rewrite Ascii.eqb_refl. cbn. now rewrite orb_true_r.
Qed.

End NumberStrings.

(** ** Paths *)

Section Paths.
Import PurePath.














End Paths.

(** ** The video command builder *)

Section Command.
Import VideoConverter.

Lemma adjacent_here {A} (a b : A) (l : list A) : adjacent a b (a :: b :: l).
Proof. exists [], l. reflexivity. Qed.

Lemma adjacent_app_r {A} (a b : A) (l1 l2 : list A) :
  adjacent a b l2 -> adjacent a b (l1 ++ l2).
Proof.
  intros (pre & post & ->). exists (l1 ++ pre)%list, post.
  now rewrite <- app_assoc.
Qed.

Lemma adjacent_app_l {A} (a b : A) (l1 l2 : list A) :
  adjacent a b l1 -> adjacent a b (l1 ++ l2).
Proof.
  intros (pre & post & ->). exists pre, (post ++ l2)%list.
  now rewrite <- app_assoc.
Qed.

Lemma adjacent_cons {A} (x a b : A) (l : list A) :
  adjacent a b l -> adjacent a b (x :: l).
Proof. apply (adjacent_app_r a b [x]). Qed.

Lemma extend_option {A B} (x : option A) (cmd : list B) (f : A -> list B) :
  match x with Some a => (cmd ++ f a)%list | None => cmd end =
  (cmd ++ match x with Some a => f a | None => [] end)%list.
Proof. destruct x; [reflexivity | now rewrite app_nil_r]. Qed.

Lemma extend_if {B} (c : bool) (cmd l : list B) :
  (if c then (cmd ++ l)%list else cmd) = (cmd ++ if c then l else [])%list.
Proof. destruct c; [reflexivity | now rewrite app_nil_r]. Qed.

Lemma extend_if_else {B} (c : bool) (cmd l1 l2 : list B) :
  (if c then (cmd ++ l1)%list else (cmd ++ l2)%list) = (cmd ++ if c then l1 else l2)%list.
Proof. now destruct c. Qed.

Lemma build_blocks (self : t) (input_path output_path : string) (o : options) :
  _build_ffmpeg_command self input_path output_path o =
  match given (ffmpeg_path self) with
  | None => Raise RuntimeError
  | Some ffmpeg =>
      quality ← quality_args self o;
      scale ← scale_args o;
      rate ← rate_args o;
      Ok ([ffmpeg; "-i"; input_path] ++ trim_args o ++ video_codec_args o ++
          quality ++ bitrate_args o ++ scale ++ rate ++
          audio_args o ++ speed_args o ++ container_args o ++
          ["-y"; output_path])%list
  end.
Proof.
  unfold _build_ffmpeg_command, scale_args, trim_args, video_codec_args,
    quality_args, bitrate_args, rate_args, audio_args, speed_args,
    container_args, codec_of.
  destruct (given (ffmpeg_path self)) as [ffmpeg|]; [|reflexivity].
  cbv zeta.
  destruct (quality_presets self !! default "medium" (quality o)) as [ps|];
    [destruct (negb (String.eqb (default "h264" (video_codec o)) "av1"));
       [destruct (str_of_int (crf ps)) as [crf_value|]; [|reflexivity]|]|];
    (destruct (given (resolution o)) as [r|];
      [destruct (_parse_resolution r) as [[width height]|]; [|reflexivity];
       cbn [mbind result_bind rbind];
       destruct (str_of_int width) as [width_text|]; [|reflexivity];
       destruct (str_of_int height) as [height_text|]; [|reflexivity]|]);
    (destruct (given_int (fps o)) as [n|];
      [destruct (str_of_int n) as [fps_text|]; [|reflexivity]|]);
    cbn [mbind result_bind rbind];
    repeat (rewrite ?extend_option, ?extend_if, ?extend_if_else; progress (rewrite <- ?app_assoc));
    rewrite ?extend_option, ?extend_if, ?extend_if_else, <- ?app_assoc, ?app_nil_r.
    all: try reflexivity.
Qed.

(** The blocks that can fail raise [ValueError] only. *)
Lemma quality_args_error (self : t) (o : options) (e : exn) :
  quality_args self o = Raise e -> e = ValueError.
Proof.
  unfold quality_args.
  destruct (quality_presets self !! default "medium" (quality o)) as [ps|];
    [|discriminate].
  destruct (negb (String.eqb (codec_of o) "av1")); [|discriminate].
  destruct (str_of_int (crf ps)) eqn:E; [discriminate|].
  cbn [mbind result_bind rbind]. intros [= <-]. exact (str_of_int_error _ _ E).
Qed.

Lemma rate_args_error (o : options) (e : exn) :
  rate_args o = Raise e -> e = ValueError.
Proof.
  unfold rate_args. destruct (given_int (fps o)) as [n|]; [|discriminate].
  destruct (str_of_int n) eqn:E; [discriminate|].
  cbn [mbind result_bind rbind]. intros [= <-]. exact (str_of_int_error _ _ E).
Qed.

Lemma given_Some (x : option string) (s : string) : given x = Some s -> x = Some s.
Proof. unfold given. destruct x as [t|]; [|discriminate]. destruct (truthy t); congruence. Qed.

Lemma given_nonempty (s : string) : s <> "" -> given (Some s) = Some s.
Proof. destruct s; [congruence | reflexivity]. Qed.

Lemma video_presets_lookup (which : string -> option string) (q : string) (ps : preset_settings) :
  quality_presets (init which) !! q = Some ps ->
  (q, ps) ∈ [("low", {| crf := 28; preset := "fast" |});
             ("medium", {| crf := 23; preset := "medium" |});
             ("high", {| crf := 18; preset := "slow" |});
             ("lossless", {| crf := 0; preset := "veryslow" |})].
Proof. apply elem_of_list_to_map_2. Qed.

Lemma video_presets_None (which : string -> option string) (q : string) :
  q ∉ ["low"; "medium"; "high"; "lossless"] ->
  quality_presets (init which) !! q = None.
Proof.
  intros Hq. apply not_elem_of_list_to_map_1. simpl. exact Hq.
Qed.

Lemma audio_codec_value (a : string) :
  default "aac" (audio_codec_map !! a) ∈ ["aac"; "libmp3lame"; "libopus"].
Proof.
  destruct (audio_codec_map !! a) as [v|] eqn:E; simpl.
  - apply elem_of_list_to_map_2 in E.
    rewrite !elem_of_cons, elem_of_nil in E. rewrite !elem_of_cons.
    intuition congruence.
  - rewrite !elem_of_cons. auto.
Qed.

Lemma video_codec_value (c : string) :
  default "libx264" (video_codec_map !! c)
    ∈ ["libx264"; "libx265"; "libvpx-vp9"; "libaom-av1"].
Proof.
  destruct (video_codec_map !! c) as [v|] eqn:E; simpl.
  - apply elem_of_list_to_map_2 in E.
    rewrite !elem_of_cons, elem_of_nil in E. rewrite !elem_of_cons.
    intuition congruence.
  - rewrite !elem_of_cons. auto.
Qed.

Ltac in_list :=
  solve [ apply list_elem_of_here
        | apply list_elem_of_further; in_list
        | apply elem_of_app; left; in_list
        | apply elem_of_app; right; in_list ].
Ltac elem_cases H :=
  repeat (apply elem_of_cons in H as [-> | H]); try (by apply elem_of_nil in H).

(** Every element of a built vector is an operand of the caller, a word of
    the quality block, a fixed word, a number or a scale expression. *)
Lemma cmd_elements (self : t) (input_path output_path : string) (o : options)
    (cmd : list string) (x : string) :
  _build_ffmpeg_command self input_path output_path o = Ok cmd ->
  x ∈ cmd ->
  x ∈ operands self input_path output_path o \/
  (exists quality, quality_args self o = Ok quality /\ x ∈ quality) \/
  x ∈ fixed_words \/
  (exists n, x = decimal n) \/
  (exists r, x = String "s" r).
Proof.
  rewrite build_blocks. intros Hb Hx.
  destruct (given (ffmpeg_path self)) as [ff|] eqn:Hff; [|discriminate].
  apply given_Some in Hff.
  destruct (quality_args self o) as [quality|] eqn:Hqa; [|discriminate].
  destruct (scale_args o) as [scale|] eqn:Hsc; [|discriminate].
  destruct (rate_args o) as [rate|] eqn:Hra; [|discriminate].
  cbn [mbind result_bind rbind] in Hb. injection Hb as <-.
  unfold operands. rewrite Hff.
  repeat (rewrite elem_of_cons in Hx || rewrite elem_of_app in Hx).
  destruct Hx as [->|[->|[->|[Hx|[->|[->|[Hx|[Hx|[Hx|[Hx|[Hx|[Hx|[Hx|[->|[->|Hx]]]]]]]]]]]]]]].
  - left. simpl. in_list.
  - right; right; left. unfold fixed_words. in_list.
  - left. simpl. in_list.
  - unfold trim_args in Hx. rewrite elem_of_app in Hx.
    destruct Hx as [Hx|Hx].
    + destruct (given (start_time o)) as [v|] eqn:E; [|by apply elem_of_nil in Hx].
      apply given_Some in E. rewrite E.
      elem_cases Hx.
      * right; right; left. unfold fixed_words. in_list.
      * left. simpl. in_list.
    + destruct (given (duration o)) as [v|] eqn:E; [|by apply elem_of_nil in Hx].
      apply given_Some in E. rewrite E.
      elem_cases Hx.
      * right; right; left. unfold fixed_words. in_list.
      * left. simpl. in_list.
  - right; right; left. unfold fixed_words. in_list.
  - right; right; left. pose proof (video_codec_value (codec_of o)) as Hv.
    unfold fixed_words. elem_cases Hv; in_list.
  - right; left. eauto.
  - unfold bitrate_args in Hx.
    destruct (given (bitrate o)) as [v|] eqn:E; [|by apply elem_of_nil in Hx].
    apply given_Some in E. rewrite E.
    elem_cases Hx.
    + right; right; left. unfold fixed_words. in_list.
    + left. simpl. in_list.
  - unfold scale_args in Hsc.
    destruct (given (resolution o)) as [r|].
    + destruct (_parse_resolution r) as [[width height]|]; [|discriminate].
      cbn [mbind result_bind rbind] in Hsc.
      destruct (str_of_int width) as [width_text|]; [|discriminate].
      destruct (str_of_int height) as [height_text|]; [|discriminate].
      cbn [mbind result_bind rbind] in Hsc. injection Hsc as <-.
      elem_cases Hx.
      * right; right; left. unfold fixed_words. in_list.
      * right; right; right; right. simpl. eauto.
    + injection Hsc as <-. by apply elem_of_nil in Hx.
  - unfold rate_args in Hra.
    destruct (given_int (fps o)) as [n|];
      [|injection Hra as <-; by apply elem_of_nil in Hx].
    destruct (str_of_int n) as [fps_text|] eqn:Hn; [|discriminate].
    cbn [mbind result_bind rbind] in Hra. injection Hra as <-.
    apply str_of_int_Ok in Hn as [-> _].
    elem_cases Hx.
    + right; right; left. unfold fixed_words. in_list.
    + right; right; right; left. eauto.
  - unfold audio_args in Hx.
    destruct (String.eqb (default "aac" (audio_codec o)) "none").
    + elem_cases Hx.
      right; right; left. unfold fixed_words. in_list.
    + elem_cases Hx.
      * right; right; left. unfold fixed_words. in_list.
      * right; right; left.
        pose proof (audio_codec_value (default "aac" (audio_codec o))) as Hv.
        unfold fixed_words. elem_cases Hv; in_list.
  - unfold speed_args in Hx.
    destruct (bool_decide (codec_of o ∈ ["h264"; "h265"])); [|by apply elem_of_nil in Hx].
    elem_cases Hx.
    + right; right; left. unfold fixed_words. in_list.
    + destruct (speed_preset o) as [v|]; simpl.
      * left. in_list.
      * right; right; left. unfold fixed_words. in_list.
  - unfold container_args in Hx.
    destruct (String.eqb (default "mp4" (format o)) "mp4"); [|by apply elem_of_nil in Hx].
    elem_cases Hx;
      right; right; left; unfold fixed_words; in_list.
  - right; right; left. unfold fixed_words. in_list.
  - left. simpl. in_list.
  - by apply elem_of_nil in Hx.
Qed.

(** The quality block stands in every built vector. *)
Lemma cmd_has_quality_args (self : t) (input_path output_path : string)
    (o : options) (cmd : list string) :
  _build_ffmpeg_command self input_path output_path o = Ok cmd ->
  exists quality pre post,
    quality_args self o = Ok quality /\ cmd = (pre ++ quality ++ post)%list.
Proof.
  rewrite build_blocks. intros Hb.
  destruct (given (ffmpeg_path self)) as [ff|]; [|discriminate].
  destruct (quality_args self o) as [quality|]; [|discriminate].
  destruct (scale_args o) as [scale|]; [|discriminate].
  destruct (rate_args o) as [rate|]; [|discriminate].
  cbn [mbind result_bind rbind] in Hb. injection Hb as <-.
  exists quality, ([ff; "-i"; input_path] ++ trim_args o ++ video_codec_args o)%list.
  eexists. split; [reflexivity|]. rewrite <- !app_assoc. reflexivity.
Qed.

(** C2.  For the options [video_codec = h265], [resolution = "1280x720"],
    [fps = 30], [audio_codec = none] and nothing else, with an encoder
    found at [ffmpeg], the builder returns the vector displayed below: it
    has the consecutive pairs [-c:v libx265], [-vf scale=1280:720] and
    [-r 30], it has [-an], and it has no [-c:a] unless one of the three
    strings supplied by the caller is that very word. *)
Theorem build_command_h265_720p (which : string -> option string)
    (ffmpeg input_path output_path : string) :
  which "ffmpeg" = Some ffmpeg -> ffmpeg <> "" ->
  exists cmd,
    _build_ffmpeg_command (init which) input_path output_path h265_720p = Ok cmd /\
    cmd = [ffmpeg; "-i"; input_path; "-c:v"; "libx265"; "-crf"; "23";
           "-preset"; "medium"; "-vf"; "scale=1280:720"; "-r"; "30"; "-an";
           "-preset"; "medium"; "-movflags"; "+faststart"; "-y"; output_path] /\
    adjacent "-c:v" "libx265" cmd /\
    adjacent "-vf" "scale=1280:720" cmd /\
    adjacent "-r" "30" cmd /\
    "-an" ∈ cmd /\
    ("-c:a" ∉ [ffmpeg; input_path; output_path] -> "-c:a" ∉ cmd).
Proof.
  intros Hw Hne. eexists. split; [|split; [reflexivity|]].
  - unfold _build_ffmpeg_command. cbn [ffmpeg_path init]. rewrite Hw.
    rewrite (given_nonempty _ Hne). vm_compute. reflexivity.
  - repeat split.
    + exists [ffmpeg; "-i"; input_path]. eexists. reflexivity.
    + exists [ffmpeg; "-i"; input_path; "-c:v"; "libx265"; "-crf"; "23"; "-preset"; "medium"].
      eexists. reflexivity.
    + exists [ffmpeg; "-i"; input_path; "-c:v"; "libx265"; "-crf"; "23"; "-preset"; "medium"; "-vf"; "scale=1280:720"].
      eexists. reflexivity.
    + rewrite !elem_of_cons. auto 20.
    + rewrite !not_elem_of_cons. intros (H1 & H2 & H3 & _).
      repeat split; try assumption; try discriminate. apply not_elem_of_nil.
Qed.

Lemma build_command_h265_720p_witness :
  exists cmd,
    _build_ffmpeg_command (init (encoder_at "/usr/bin/ffmpeg")) "in.mov" "out.mp4" h265_720p = Ok cmd /\
    "-an" ∈ cmd /\ "-c:a" ∉ cmd.
Proof.
  destruct (build_command_h265_720p (encoder_at "/usr/bin/ffmpeg")
              "/usr/bin/ffmpeg" "in.mov" "out.mp4" eq_refl ltac:(discriminate))
    as (cmd & Hcmd & _ & _ & _ & _ & Han & Hca).
  exists cmd. repeat split; [exact Hcmd | exact Han |].
  apply Hca. rewrite !not_elem_of_cons.
  repeat split; try discriminate. apply not_elem_of_nil.
Defined.

(** The numbers of the preset table are short enough to be written. *)
Lemma video_presets_crf (which : string -> option string) (q : string)
    (ps : preset_settings) :
  quality_presets (init which) !! q = Some ps ->
  str_of_int (crf ps) = Ok (decimal (crf ps)).
Proof.
  intros Hps%video_presets_lookup.
  repeat (apply elem_of_cons in Hps as [Hps | Hps];
          [injection Hps as _ ->; vm_compute; reflexivity|]).
  by apply elem_of_nil in Hps.
Qed.

Lemma quality_args_known (which : string -> option string) (o : options)
    (q : string) (ps : preset_settings) :
  quality o = Some q ->
  quality_presets (init which) !! q = Some ps ->
  quality_args (init which) o =
    Ok (if String.eqb (codec_of o) "av1" then ["-preset"; preset ps]
        else ["-crf"; decimal (crf ps); "-preset"; preset ps]).
Proof.
  intros Hq Hps. unfold quality_args. rewrite Hq. cbn [from_option id].
  rewrite Hps. destruct (String.eqb (codec_of o) "av1"); cbn [negb];
    [reflexivity|].
  now rewrite (video_presets_crf which q ps Hps).
Qed.

Lemma preset_value_not_crf (which : string -> option string) (q : string)
    (ps : preset_settings) :
  quality_presets (init which) !! q = Some ps -> preset ps <> "-crf".
Proof.
  intros Hps%video_presets_lookup.
  repeat (apply elem_of_cons in Hps as [Hps | Hps];
          [injection Hps as _ ->; discriminate|]).
  by apply elem_of_nil in Hps.
Qed.

(** What [_parse_resolution] has read can be written back. *)
Lemma parse_resolution_writable (r : string) (width height : Z) :
  _parse_resolution r = Ok (width, height) ->
  str_of_int width = Ok (decimal width) /\
  str_of_int height = Ok (decimal height).
Proof.
  unfold _parse_resolution.
  destruct (contains_char "x" (lower r)); [|discriminate].
  destruct (Py.split "x" (lower r)) as [|a [|b [|c rest]]]; try discriminate.
  - destruct (int_of_str a) as [n|] eqn:Ha; [|discriminate].
    destruct (int_of_str b) as [m|] eqn:Hb; [|discriminate].
    cbn [mbind result_bind rbind]. intros [= <- <-].
    split; eapply int_of_str_writable; eassumption.
  - destruct (int_of_str a); [|discriminate].
    destruct (int_of_str b); [|discriminate].
    destruct (int_of_str c); discriminate.
Qed.

(** The scale and rate blocks are produced whenever the resolution is one
    that [_parse_resolution] accepts and the frame rate can be written. *)
Lemma scale_args_accepts (o : options) :
  (forall r, given (resolution o) = Some r -> is_ok (_parse_resolution r) = true) ->
  exists scale, scale_args o = Ok scale.
Proof.
  intros Hres. unfold scale_args.
  destruct (given (resolution o)) as [r|]; [|eauto].
  specialize (Hres r eq_refl).
  destruct (_parse_resolution r) as [[width height]|] eqn:Hr; [|discriminate].
  destruct (parse_resolution_writable r width height Hr) as [Hw Hh].
  cbn [mbind result_bind rbind]. rewrite Hw. cbn [mbind result_bind rbind].
  rewrite Hh. cbn [mbind result_bind rbind]. eauto.
Qed.

Lemma rate_args_accepts (o : options) :
  (forall n, given_int (fps o) = Some n -> is_ok (str_of_int n) = true) ->
  exists rate, rate_args o = Ok rate.
Proof.
  intros Hfps. unfold rate_args.
  destruct (given_int (fps o)) as [n|]; [|eauto].
  specialize (Hfps n eq_refl).
  destruct (str_of_int n); [|discriminate].
  cbn [mbind result_bind rbind]. eauto.
Qed.

(** C8.  Let the quality be a name of the video preset table, with
    settings [ps], let an encoder be found, and let the [resolution]
    option, if given, be one that [_parse_resolution] accepts and the
    [fps] option, if given, a number that [str] writes.  Then the builder
    returns a vector [cmd].  When the codec is [av1], [cmd] has [-preset]
    followed by the speed preset of [ps], and [-crf] occurs in [cmd] only
    if the caller supplied that very word as an operand.  For every other
    codec, unset or unknown ones included, [cmd] has both [-crf] followed
    by the CRF of [ps] and [-preset] followed by its speed preset. *)
Theorem quality_block_av1_exemption (which : string -> option string)
    (ffmpeg input_path output_path : string) (o : options) (q : string)
    (ps : preset_settings) :
  which "ffmpeg" = Some ffmpeg -> ffmpeg <> "" ->
  quality o = Some q ->
  quality_presets (init which) !! q = Some ps ->
  (forall r, given (resolution o) = Some r -> is_ok (_parse_resolution r) = true) ->
  (forall n, given_int (fps o) = Some n -> is_ok (str_of_int n) = true) ->
  exists cmd,
    _build_ffmpeg_command (init which) input_path output_path o = Ok cmd /\
    (video_codec o = Some "av1" ->
       adjacent "-preset" (preset ps) cmd /\
       ("-crf" ∉ operands (init which) input_path output_path o -> "-crf" ∉ cmd)) /\
    (video_codec o <> Some "av1" ->
       adjacent "-crf" (decimal (crf ps)) cmd /\
       adjacent "-preset" (preset ps) cmd).
Proof.
  intros Hw Hne Hq Hps Hres Hfps.
  pose proof (quality_args_known which o q ps Hq Hps) as Hqa.
  destruct (scale_args_accepts o Hres) as (scale & Hsc).
  destruct (rate_args_accepts o Hfps) as (rate & Hra).
  destruct (_build_ffmpeg_command (init which) input_path output_path o)
    as [cmd|e] eqn:Hb.
  2:{ exfalso. rewrite build_blocks in Hb. cbn [ffmpeg_path init] in Hb.
      rewrite Hw, (given_nonempty _ Hne), Hqa, Hsc, Hra in Hb. discriminate. }
  exists cmd. split; [reflexivity|].
  destruct (cmd_has_quality_args _ _ _ _ _ Hb) as (quality & pre & post & Hqa' & Hcmd).
  rewrite Hqa in Hqa'. injection Hqa' as <-.
  split.
  - intros Hav1.
    assert (codec_of o = "av1") as Hc by (unfold codec_of; now rewrite Hav1).
    rewrite Hc in Hqa, Hcmd. cbn in Hqa, Hcmd. split.
    + rewrite Hcmd. apply adjacent_app_r, adjacent_here.
    + intros Hop Hin.
      destruct (cmd_elements _ _ _ _ _ _ Hb Hin)
        as [H1 | [(quality & Hqa' & H1) | [H1 | [[n H1] | [r H1]]]]].
      * exact (Hop H1).
      * rewrite Hqa in Hqa'. injection Hqa' as <-.
        apply elem_of_cons in H1 as [H1 | H1]; [discriminate|].
        apply elem_of_cons in H1 as [H1 | H1]; [|by apply elem_of_nil in H1].
        exact (preset_value_not_crf which q ps Hps (eq_sym H1)).
      * unfold fixed_words in H1.
        repeat (apply elem_of_cons in H1 as [H1 | H1]; [discriminate|]).
        by apply elem_of_nil in H1.
      * symmetry in H1. revert H1. now apply decimal_not_flag.
      * discriminate.
  - intros Hother.
    assert (String.eqb (codec_of o) "av1" = false) as Hc.
    { apply String.eqb_neq. unfold codec_of.
      destruct (video_codec o) as [c|]; cbn; [congruence | discriminate]. }
    rewrite Hc in Hcmd. rewrite Hcmd. split.
    + apply adjacent_app_r, adjacent_app_l, adjacent_here.
    + apply adjacent_app_r, adjacent_app_l, adjacent_cons, adjacent_cons,
        adjacent_here.
Qed.

Lemma quality_block_av1_exemption_witness :
  (exists cmd,
     _build_ffmpeg_command (init (encoder_at "/usr/bin/ffmpeg")) "in.mov" "out.mkv"
       av1_high = Ok cmd /\
     adjacent "-preset" "slow" cmd /\ "-crf" ∉ cmd) /\
  (exists cmd,
     _build_ffmpeg_command (init (encoder_at "/usr/bin/ffmpeg")) "in.mov" "out.mp4"
       (with_quality "high") = Ok cmd /\
     adjacent "-crf" "18" cmd /\ adjacent "-preset" "slow" cmd).
Proof.
  split.
  - destruct (quality_block_av1_exemption (encoder_at "/usr/bin/ffmpeg")
                "/usr/bin/ffmpeg" "in.mov" "out.mkv" av1_high "high"
                {| crf := 18; preset := "slow" |})
      as (cmd & Hcmd & Hav1 & _);
      [reflexivity | discriminate | reflexivity | reflexivity
      | intros r Hr; discriminate
      | intros n [= <-]; reflexivity |].
    destruct (Hav1 eq_refl) as [Hadj Hno].
    exists cmd. split; [exact Hcmd|]. split; [exact Hadj|].
    apply Hno. vm_compute.
    repeat (apply not_elem_of_cons; split; [discriminate|]). apply not_elem_of_nil.
  - destruct (quality_block_av1_exemption (encoder_at "/usr/bin/ffmpeg")
                "/usr/bin/ffmpeg" "in.mov" "out.mp4" (with_quality "high") "high"
                {| crf := 18; preset := "slow" |})
      as (cmd & Hcmd & _ & Hother);
      [reflexivity | discriminate | reflexivity | reflexivity
      | intros r Hr; discriminate
      | intros n Hn; discriminate |].
    destruct (Hother ltac:(discriminate)) as [Hcrf Hpreset].
    exists cmd. repeat split; assumption.
Defined.

(** C5, counterexample.  ["ultra"] is in neither preset table.  The video
    builder returns a vector for it, with no quality parameters; the image
    converter keeps the string as the quality. *)
Lemma unknown_preset_is_accepted :
  quality_presets (init (encoder_at "/usr/bin/ffmpeg")) !! "ultra" = None /\
  _build_ffmpeg_command (init (encoder_at "/usr/bin/ffmpeg")) "in.mov" "out.mp4"
    (with_quality "ultra")
  = Ok ["/usr/bin/ffmpeg"; "-i"; "in.mov"; "-c:v"; "libx264"; "-c:a"; "aac";
        "-preset"; "medium"; "-movflags"; "+faststart"; "-y"; "out.mp4"] /\
  (forall e, _build_ffmpeg_command (init (encoder_at "/usr/bin/ffmpeg")) "in.mov"
               "out.mp4" (with_quality "ultra") <> Raise e) /\
  ImageConverter.quality_presets ImageConverter.init !! "ultra" = None /\
  ImageConverter.resolve_quality ImageConverter.init
    (image_with_quality (VStr "ultra")) = VStr "ultra".
Proof.
  repeat split; try (vm_compute; reflexivity).
  intros e. vm_compute. discriminate.
Qed.

(** C5, as amended.  A quality that is a name outside the preset table is
    not an error.  The video builder leaves the quality block out: the
    vector is made of the other blocks alone, and the builder fails only
    for a missing encoder, an invalid resolution or a frame rate too long
    to be written.  The image converter
    passes the name on unchanged, as the [quality] save parameter of a
    JPEG or WebP target. *)
Theorem unknown_preset_is_ignored (which : string -> option string)
    (input_path output_path : string) (o : options)
    (io : ImageConverter.options) (q : string) :
  (quality o = Some q ->
   q ∉ ["low"; "medium"; "high"; "lossless"] ->
   _build_ffmpeg_command (init which) input_path output_path o =
     match given (which "ffmpeg") with
     | None => Raise RuntimeError
     | Some ffmpeg =>
         scale ← scale_args o;
         rate ← rate_args o;
         Ok ([ffmpeg; "-i"; input_path] ++ trim_args o ++ video_codec_args o ++
             bitrate_args o ++ scale ++ rate ++ audio_args o ++
             speed_args o ++ container_args o ++ ["-y"; output_path])%list
     end) /\
  (ImageConverter.quality io = Some (VStr q) ->
   q ∉ ["low"; "medium"; "high"; "maximum"] ->
   ImageConverter.resolve_quality ImageConverter.init io = VStr q /\
   forall format_name, format_name ∈ [Some "JPEG"; Some "WebP"] ->
     ImageConverter.prepare_save_options format_name
       (ImageConverter.resolve_quality ImageConverter.init io) io !! "quality"
     = Some (VStr q)).
Proof.
  split.
  - intros Hq Hnot. rewrite build_blocks. cbn [ffmpeg_path init].
    unfold quality_args. rewrite Hq. cbn [from_option id].
    rewrite (video_presets_None which q Hnot). reflexivity.
  - intros Hq Hnot.
    assert (ImageConverter.resolve_quality ImageConverter.init io = VStr q) as Hr.
    { unfold ImageConverter.resolve_quality. rewrite Hq. cbn [from_option id].
      replace (ImageConverter.quality_presets ImageConverter.init !! q)
        with (@None Z); [reflexivity|].
      symmetry. apply not_elem_of_list_to_map_1. exact Hnot. }
    split; [exact Hr|]. intros format_name Hf. rewrite Hr.
    unfold ImageConverter.prepare_save_options.
    elem_cases Hf; simpl.
    + destruct (ImageConverter.flag (ImageConverter.progressive io));
        rewrite ?(lookup_insert_ne _ "progressive") by done;
        rewrite lookup_insert_ne by done; apply lookup_insert_eq.
    + rewrite lookup_insert_ne by done. apply lookup_insert_eq.
Qed.

Lemma unknown_preset_is_ignored_witness :
  _build_ffmpeg_command (init (encoder_at "/usr/bin/ffmpeg")) "in.mov" "out.mp4"
    (with_quality "ultra")
  = Ok ["/usr/bin/ffmpeg"; "-i"; "in.mov"; "-c:v"; "libx264"; "-c:a"; "aac";
        "-preset"; "medium"; "-movflags"; "+faststart"; "-y"; "out.mp4"] /\
  ImageConverter.resolve_quality ImageConverter.init
    (image_with_quality (VStr "ultra")) = VStr "ultra".
Proof.
  destruct (unknown_preset_is_ignored (encoder_at "/usr/bin/ffmpeg") "in.mov"
              "out.mp4" (with_quality "ultra")
              (image_with_quality (VStr "ultra")) "ultra") as [Hv Hi].
  split.
  - rewrite Hv; [vm_compute; reflexivity | reflexivity |].
    repeat (apply not_elem_of_cons; split; [discriminate|]). apply not_elem_of_nil.
  - apply Hi; [reflexivity|].
    repeat (apply not_elem_of_cons; split; [discriminate|]). apply not_elem_of_nil.
Defined.
End Command.

(** ** Single-file conversion *)

Section VideoConvert.
Context `{Platform}.
Import VideoConverter.

Lemma check_output_true (returncode : Z) (output_path : string) (w : World)
    (b : bool) (w' : World) :
  check_output returncode output_path w = (Ok b, w') ->
  b = true ->
  returncode = 0 /\
  path_exists (PurePath.to_str (PurePath.of_str output_path)) w = Ok true /\
  exists size,
    stat_size (PurePath.to_str (PurePath.of_str output_path)) w = Ok size /\
    0 < size.
Proof.
  unfold check_output. destruct (returncode =? 0) eqn:Hrc.
  - apply Z.eqb_eq in Hrc. unfold io_bind, io_read, io_ret.
    destruct (path_exists _ w) as [[|]|e] eqn:Hex.
    + destruct (stat_size _ w) as [size|e] eqn:Hst; [|discriminate].
      intros [= <- <-] Hb. apply Z.ltb_lt in Hb. eauto.
    + intros [= <- <-]. discriminate.
    + discriminate.
  - unfold io_ret. intros [= <- <-]. discriminate.
Qed.

(** The verdict of [convert] once the encoder is there and the existence
    test of the input has answered [True]. *)
Lemma video_convert_try_verdict (self : t) (input_path output_path : string)
    (o : options) (w : World) :
  exists (b : bool) (w' : World),
    try_except (convert_try self input_path output_path o)
      (fun e => io_ret false) w = (Ok b, w') /\
    (b = true <->
     exists cmd w1 w2 size,
       mkdir_parents
         (PurePath.to_str (PurePath.parent (PurePath.of_str output_path))) w
         = (Ok tt, w1) /\
       _build_ffmpeg_command self input_path output_path o = Ok cmd /\
       run_encoder cmd w1 = (Ok 0, w2) /\
       path_exists (PurePath.to_str (PurePath.of_str output_path)) w2 = Ok true /\
       stat_size (PurePath.to_str (PurePath.of_str output_path)) w2 = Ok size /\
       0 < size).
Proof.
  unfold try_except, convert_try, io_bind, io_lift, io_ret.
  destruct (mkdir_parents _ w) as [[[]|e] w1] eqn:Hmk.
  2:{ exists false, w1. split; [reflexivity|]. split; [discriminate|].
      intros (? & ? & ? & ? & ? & _). discriminate. }
  destruct (_build_ffmpeg_command self input_path output_path o) as [cmd|e] eqn:Hcmd.
  2:{ exists false, w1. split; [reflexivity|]. split; [discriminate|].
      intros (? & ? & ? & ? & _ & ? & _). discriminate. }
  destruct (run_encoder cmd w1) as [[rc|e] w2] eqn:Hrun.
  2:{ exists false, w2. split; [reflexivity|]. split; [discriminate|].
      intros (? & ? & ? & ? & Hm & Hc & Hr & _).
      injection Hm as <-. injection Hc as <-. rewrite Hrun in Hr. discriminate. }
  destruct (check_output rc output_path w2) as [[b|e] w3] eqn:Hchk.
  - exists b, w3. split; [reflexivity|]. split.
    + intros Hb. destruct (check_output_true _ _ _ _ _ Hchk Hb)
        as (-> & Hex & size & Hst & Hpos).
      exists cmd, w1, w2, size. repeat split; assumption.
    + intros (cmd' & w1' & w2' & size & Hm & Hc & Hr & Hex & Hst & Hpos).
      injection Hm as <-. injection Hc as <-. rewrite Hrun in Hr.
      injection Hr as -> <-.
      unfold check_output, io_bind, io_read, io_ret in Hchk. cbn in Hchk.
      rewrite Hex, Hst in Hchk.
      injection Hchk as <- _. now apply Z.ltb_lt.
  - exists false, w3. split; [reflexivity|]. split; [discriminate|].
    intros (cmd' & w1' & w2' & size & Hm & Hc & Hr & Hex & Hst & Hpos).
    injection Hm as <-. injection Hc as <-. rewrite Hrun in Hr.
    injection Hr as -> <-.
    unfold check_output, io_bind, io_read, io_ret in Hchk. cbn in Hchk.
    rewrite Hex, Hst in Hchk. discriminate.
Qed.

(** C4 (the code departs from the claim).  The existence test of the input
    path is made before the [try] block: when the encoder is there and
    that test raises, single-file video conversion raises the same
    exception to its caller, in a world left as it was.  In every other
    case it returns a boolean, and that is [True] exactly when the encoder
    is available, the input exists, the output directory could be made,
    the command could be built, the encoder process ended with exit code
    0, and the output file then exists with a size greater than zero.  An
    exception inside the [try] block, a nonzero exit code and a missing or
    empty output file all give [False]. *)
Theorem video_convert_verdict (self : t) (input_path output_path : string)
    (o : options) (w : World) :
  (forall e,
     _check_dependencies self = true ->
     path_exists (PurePath.to_str (PurePath.of_str input_path)) w = Raise e ->
     convert self input_path output_path o w = (Raise e, w)) /\
  ((_check_dependencies self = false \/
    exists found,
      path_exists (PurePath.to_str (PurePath.of_str input_path)) w = Ok found) ->
   exists (b : bool) (w' : World),
     convert self input_path output_path o w = (Ok b, w') /\
     (b = true <->
      exists cmd w1 w2 size,
        _check_dependencies self = true /\
        path_exists (PurePath.to_str (PurePath.of_str input_path)) w = Ok true /\
        mkdir_parents
          (PurePath.to_str (PurePath.parent (PurePath.of_str output_path))) w
          = (Ok tt, w1) /\
        _build_ffmpeg_command self input_path output_path o = Ok cmd /\
        run_encoder cmd w1 = (Ok 0, w2) /\
        path_exists (PurePath.to_str (PurePath.of_str output_path)) w2 = Ok true /\
        stat_size (PurePath.to_str (PurePath.of_str output_path)) w2 = Ok size /\
        0 < size)).
Proof.
  unfold convert, io_bind, io_read. cbv beta. split.
  - intros e -> Hin. cbn [negb]. rewrite Hin. reflexivity.
  - intros Hanswer.
    destruct (_check_dependencies self) eqn:Hdep; cbn [negb].
    2:{ exists false, w. split; [reflexivity|]. split; [discriminate|].
        intros (? & ? & ? & ? & ? & _). discriminate. }
    destruct Hanswer as [? | [found Hin]]; [discriminate|]. rewrite Hin.
    destruct found; cbn [negb].
    2:{ exists false, w. split; [reflexivity|]. split; [discriminate|].
        intros (? & ? & ? & ? & _ & ? & _). discriminate. }
    destruct (video_convert_try_verdict self input_path output_path o w)
      as (b & w' & Hrun & Hb).
    exists b, w'. split; [exact Hrun|]. rewrite Hb. split.
    + intros (cmd & w1 & w2 & size & Hrest).
      exists cmd, w1, w2, size. split; [reflexivity|]. split; [reflexivity|].
      exact Hrest.
    + intros (cmd & w1 & w2 & size & _ & _ & Hrest).
      exists cmd, w1, w2, size. exact Hrest.
Qed.

End VideoConvert.

Section ImageConvert.
Context `{Platform}.
Import ImageConverter.


Lemma without_watermark_fields (o : options) :
  format (without_watermark o) = format o /\
  resize (without_watermark o) = resize o /\
  watermark (without_watermark o) = None.
Proof. destruct o. repeat split. Qed.

Lemma output_format_name_without_watermark (self : t) (output_path : string)
    (o : options) (original_format : option string) :
  output_format_name self output_path (without_watermark o) original_format
  = output_format_name self output_path o original_format.
Proof. destruct o. reflexivity. Qed.

Lemma apply_filters_without_watermark (img : Image) (o : options) :
  _apply_filters img (without_watermark o) = _apply_filters img o.
Proof. destruct o. reflexivity. Qed.

Lemma finish_without_watermark (self : t) (img : Image) (output_path : string)
    (format_name : option string) (o : options) :
  finish self img output_path format_name (without_watermark o)
  = finish self img output_path format_name o.
Proof. destruct o. reflexivity. Qed.

Lemma add_watermark_unreadable (img : Image) (watermark_path : string)
    (o : options) (w : World) (e : exn) :
  image_open watermark_path w = Raise e ->
  _add_watermark img watermark_path o w = (Ok img, w).
Proof.
  intros Hopen. unfold _add_watermark, _add_watermark_try, load_watermark.
  rewrite Hopen. reflexivity.
Qed.

Lemma convert_try_unreadable_watermark (self : t)
    (input_path output_path watermark_path : string) (o : options) (w : World)
    (e : exn) :
  watermark o = Some watermark_path ->
  image_open watermark_path
    (snd (mkdir_parents
            (PurePath.to_str (PurePath.parent (PurePath.of_str output_path)))
            w)) = Raise e ->
  convert_try self input_path output_path o w
  = convert_try self input_path output_path (without_watermark o) w.
Proof.
  intros Hwm Hopen. unfold convert_try, io_bind.
  destruct (mkdir_parents _ w) as [[[]|e1] w1]; [|reflexivity].
  cbn [snd] in Hopen. unfold io_read.
  destruct (image_open input_path w1) as [img0|e2]; [|reflexivity].
  rewrite output_format_name_without_watermark.
  destruct (output_format_name self output_path o (image_format img0))
    as [format_name|]; [|reflexivity].
  destruct (without_watermark_fields o) as (_ & -> & ->). rewrite Hwm.
  destruct (given (resize o)) as [spec|].
  - unfold io_lift. cbv beta iota.
    destruct (_parse_resize spec (image_size img0)
              ≫= λ new_size, image_resize img0 new_size) as [img1|e3];
      [|reflexivity].
    rewrite apply_filters_without_watermark.
    destruct (_apply_filters img1 o) as [img2|e4]; [|reflexivity].
    destruct (given (Some watermark_path)) as [p|] eqn:Hg.
    + apply given_Some in Hg. injection Hg as <-.
      rewrite (add_watermark_unreadable img2 watermark_path o w1 e Hopen).
      cbn [given]. unfold io_ret. now rewrite finish_without_watermark.
    + cbn [given]. unfold io_ret. now rewrite finish_without_watermark.
  - unfold io_lift, io_ret at 1 3. cbv beta iota.
    rewrite apply_filters_without_watermark.
    destruct (_apply_filters img0 o) as [img2|e4]; [|reflexivity].
    destruct (given (Some watermark_path)) as [p|] eqn:Hg.
    + apply given_Some in Hg. injection Hg as <-.
      rewrite (add_watermark_unreadable img2 watermark_path o w1 e Hopen).
      cbn [given]. unfold io_ret. now rewrite finish_without_watermark.
    + cbn [given]. unfold io_ret. now rewrite finish_without_watermark.
Qed.

(** C10.  The watermark step never raises, whatever the platform does: it
    always returns an image, in an unchanged world.  If anything fails
    before the canvas is touched, a watermark file that cannot be opened
    included, the image returned is the input image itself.  In [convert]
    the statements after the watermark step then run on the returned
    image; with a watermark that cannot be opened, [convert] behaves
    exactly as it does without the [watermark] option. *)
Theorem watermark_failure_is_contained (self : t) (img : Image)
    (watermark_path : string) (o : options) (w : World) :
  (exists img', _add_watermark img watermark_path o w = (Ok img', w)) /\
  (forall e, load_watermark img watermark_path o w = Raise e ->
             _add_watermark img watermark_path o w = (Ok img, w)) /\
  (forall e, image_open watermark_path w = Raise e ->
             _add_watermark img watermark_path o w = (Ok img, w)) /\
  (forall output_path format_name,
     io_bind (_add_watermark img watermark_path o)
       (fun img' => finish self img' output_path format_name o) w
     = finish self (fst (_add_watermark_try img watermark_path o w))
         output_path format_name o w) /\
  (forall input_path output_path e,
     watermark o = Some watermark_path ->
     image_open watermark_path
       (snd (mkdir_parents
               (PurePath.to_str (PurePath.parent (PurePath.of_str output_path)))
               w)) = Raise e ->
     convert self input_path output_path o w
     = convert self input_path output_path (without_watermark o) w).
Proof.
  repeat split.
  - unfold _add_watermark.
    destruct (_add_watermark_try img watermark_path o w) as [img' [e|]]; eauto.
  - intros e He. unfold _add_watermark, _add_watermark_try. now rewrite He.
  - intros e. apply add_watermark_unreadable.
  - intros output_path format_name. unfold io_bind, _add_watermark.
    destruct (_add_watermark_try img watermark_path o w) as [img' [e|]];
      reflexivity.
  - intros input_path output_path e Hwm Hopen. unfold convert, io_bind, io_read.
    cbv beta. cbn [_check_dependencies negb].
    destruct (path_exists _ w) as [found|]; [|reflexivity].
    destruct (negb found); [reflexivity|].
    destruct (negb (bool_decide _)); [reflexivity|].
    unfold try_except.
    now rewrite (convert_try_unreadable_watermark self input_path output_path
                   watermark_path o w e Hwm Hopen).
Qed.
End ImageConvert.

(** ** Batch conversion *)

Section BatchLoop.
Context `{Platform}.
Variable process : PurePath.t -> io bool.
Hypothesis process_returns :
  forall f w,
    path_exists (PurePath.to_str (PurePath.of_str f)) w = Ok true ->
    exists b w', process (PurePath.of_str f) w = (Ok b, w').

Lemma exists_answers_cons (f : string) (rest : list string) :
  exists_answers (f :: rest) ->
  (forall w, exists found,
     path_exists (PurePath.to_str (PurePath.of_str f)) w = Ok found) /\
  exists_answers rest.
Proof.
  intros Hans. split.
  - apply Hans, list_elem_of_here.
  - intros g Hg. apply Hans. now apply list_elem_of_further.
Qed.

Lemma exists_answers_app (pre post : list string) :
  exists_answers (pre ++ post) -> exists_answers pre /\ exists_answers post.
Proof.
  intros Hans. split; intros g Hg; apply Hans, elem_of_app; auto.
Qed.

Lemma loop_traced_erase (input_files : list string) (results : gmap string bool)
    (calls : list string) (w : World) :
  Batch.loop process input_files results w =
  match Batch.loop_traced process input_files results calls w with
  | (Ok (m, _), w') => (Ok m, w')
  | (Raise e, w') => (Raise e, w')
  end.
Proof.
  revert results calls w.
  induction input_files as [|f rest IH]; intros results calls w; cbn.
  - reflexivity.
  - unfold io_bind, io_read.
    destruct (path_exists _ w) as [[|]|e]; cbn [negb]; [|apply IH|reflexivity].
    destruct (process (PurePath.of_str f) w) as [[b|e] w'];
      [apply IH | reflexivity].
Qed.

Lemma loop_traced_app (pre post : list string) (results : gmap string bool)
    (calls : list string) (w : World) :
  Batch.loop_traced process (pre ++ post) results calls w =
  match Batch.loop_traced process pre results calls w with
  | (Ok (m, c), w') => Batch.loop_traced process post m c w'
  | (Raise e, w') => (Raise e, w')
  end.
Proof.
  revert results calls w.
  induction pre as [|f rest IH]; intros results calls w; cbn.
  - reflexivity.
  - unfold io_bind, io_read.
    destruct (path_exists _ w) as [[|]|e]; cbn [negb]; [|apply IH|reflexivity].
    destruct (process (PurePath.of_str f) w) as [[b|e] w'];
      [apply IH | reflexivity].
Qed.

(** When the existence tests answer, the loop returns; it adds the inputs
    to the keys, touches no other entry, and extends the calls by inputs,
    in their order. *)
Lemma loop_traced_frame (input_files : list string) (results : gmap string bool)
    (calls : list string) (w : World) :
  exists_answers input_files ->
  exists results' new_calls w',
    Batch.loop_traced process input_files results calls w
      = (Ok (results', (calls ++ new_calls)%list), w') /\
    dom results' = dom results ∪ list_to_set input_files /\
    (forall k, k ∉ input_files -> results' !! k = results !! k) /\
    sublist new_calls input_files.
Proof.
  revert results calls w.
  induction input_files as [|f rest IH]; intros results calls w Hans; cbn.
  - exists results, [], w. rewrite app_nil_r.
    split; [reflexivity|]. split; [|split; [done | constructor]].
    now rewrite ?list_to_set_nil, (right_id_L ∅ (∪)).
  - apply exists_answers_cons in Hans as [Hf Hrest].
    unfold io_bind, io_read. destruct (Hf w) as [found Hfound]. rewrite Hfound.
    destruct found; cbn [negb].
    + destruct (process_returns f w Hfound) as (b & w1 & ->).
      destruct (IH (<[f := b]> results) (calls ++ [f])%list w1 Hrest)
        as (results' & new_calls & w' & -> & Hdom & Hframe & Hsub).
      exists results', (f :: new_calls), w'. repeat split.
      * now rewrite <- app_assoc.
      * rewrite Hdom, dom_insert_L, ?list_to_set_cons.
        rewrite (assoc_L (∪) (dom results)).
        now rewrite (comm_L (∪) (dom results) {[f]}).
      * intros k Hk. apply not_elem_of_cons in Hk as [Hkf Hk].
        rewrite (Hframe k Hk). now apply lookup_insert_ne.
      * now apply sublist_skip.
    + destruct (IH (<[f := false]> results) calls w Hrest)
        as (results' & new_calls & w' & -> & Hdom & Hframe & Hsub).
      exists results', new_calls, w'. repeat split.
      * rewrite Hdom, dom_insert_L, ?list_to_set_cons.
        rewrite (assoc_L (∪) (dom results)).
        now rewrite (comm_L (∪) (dom results) {[f]}).
      * intros k Hk. apply not_elem_of_cons in Hk as [Hkf Hk].
        rewrite (Hframe k Hk). now apply lookup_insert_ne.
      * now apply sublist_cons.
Qed.

Lemma sublist_elem (l1 l2 : list string) (x : string) :
  sublist l1 l2 -> x ∈ l1 -> x ∈ l2.
Proof. intros Hs Hx. eapply sublist_submseteq, elem_of_submseteq in Hs; eauto. Qed.

Lemma loop_traced_outcome (input_files : list string) (w0 : World) :
  NoDup input_files ->
  exists_answers input_files ->
  exists results calls w',
    Batch.loop_traced process input_files ∅ [] w0 = (Ok (results, calls), w') /\
    batch_outcome process input_files w0 results calls.
Proof.
  intros Hnd Hans.
  destruct (loop_traced_frame input_files ∅ [] w0 Hans)
    as (results & calls & w' & Hrun & Hdom & Hframe & Hsub).
  cbn [app] in Hrun. exists results, calls, w'. split; [exact Hrun|].
  rewrite dom_empty_L, (left_id_L ∅ (∪)) in Hdom.
  repeat split.
  - rewrite <- size_dom, Hdom. now apply size_list_to_set.
  - intros Hf. apply elem_of_dom. rewrite Hdom. now apply elem_of_list_to_set.
  - intros Hf. apply elem_of_dom in Hf. rewrite Hdom in Hf.
    now apply elem_of_list_to_set in Hf.
  - exact Hsub.
  - intros pre f post ->.
    apply NoDup_app in Hnd as (Hpre & Hdisj & Hpost).
    apply NoDup_cons in Hpost as [Hfpost Hpost].
    assert (f ∉ pre) as Hfpre.
    { intros Hin. apply (Hdisj f Hin). apply list_elem_of_here. }
    apply exists_answers_app in Hans as [Hans_pre Hans_post].
    apply exists_answers_cons in Hans_post as [Hans_f Hans_post].
    rewrite loop_traced_app in Hrun.
    destruct (loop_traced_frame pre ∅ [] w0 Hans_pre)
      as (r1 & c1 & w1 & Hrun1 & _ & Hframe1 & Hsub1).
    cbn [app] in Hrun1. rewrite Hrun1 in Hrun.
    exists r1, c1, w1. split; [exact Hrun1|].
    assert (f ∉ c1) as Hfc1 by (intros Hin; exact (Hfpre (sublist_elem _ _ _ Hsub1 Hin))).
    unfold entry_of. cbn in Hrun. unfold io_bind, io_read in Hrun.
    destruct (Hans_f w1) as [found Hfound]. rewrite Hfound in Hrun |- *.
    destruct found; cbn [negb] in Hrun.
    + destruct (process_returns f w1 Hfound) as (b & w2 & Hp).
      rewrite Hp in Hrun.
      destruct (loop_traced_frame post (<[f := b]> r1) (c1 ++ [f])%list w2 Hans_post)
        as (r3 & c3 & w3 & Hrun3 & _ & Hframe3 & Hsub3).
      rewrite Hrun3 in Hrun. injection Hrun as <- <- <-. split.
      * rewrite !elem_of_app. left; right. apply list_elem_of_here.
      * exists b, w2. split; [exact Hp|].
        rewrite (Hframe3 f Hfpost). apply lookup_insert_eq.
    + destruct (loop_traced_frame post (<[f := false]> r1) c1 w1 Hans_post)
        as (r3 & c3 & w3 & Hrun3 & _ & Hframe3 & Hsub3).
      rewrite Hrun3 in Hrun. injection Hrun as <- <- <-. split.
      * rewrite elem_of_app. intros [Hin | Hin]; [exact (Hfc1 Hin)|].
        exact (Hfpost (sublist_elem _ _ _ Hsub3 Hin)).
      * rewrite (Hframe3 f Hfpost). apply lookup_insert_eq.
Qed.


End BatchLoop.

Section BatchConvert.
Context `{Platform}.

Lemma batch_convert_traced_outcome (process : PurePath.t -> io bool)
    (input_files : list string) (output_dir : string) (w w0 : World) :
  (forall f w1,
     path_exists (PurePath.to_str (PurePath.of_str f)) w1 = Ok true ->
     exists b w', process (PurePath.of_str f) w1 = (Ok b, w')) ->
  NoDup input_files ->
  mkdir_parents (PurePath.to_str (PurePath.of_str output_dir)) w = (Ok tt, w0) ->
  exists_answers input_files ->
  exists results calls w',
    io_bind (mkdir_parents (PurePath.to_str (PurePath.of_str output_dir)))
      (fun _ => Batch.loop_traced process input_files ∅ []) w
      = (Ok (results, calls), w') /\
    io_bind (mkdir_parents (PurePath.to_str (PurePath.of_str output_dir)))
      (fun _ => Batch.loop process input_files ∅) w
      = (Ok results, w') /\
    batch_outcome process input_files w0 results calls.
Proof.
  intros Hret Hnd Hmk Hans.
  destruct (loop_traced_outcome process Hret input_files w0 Hnd Hans)
    as (results & calls & w' & Hrun & Hout).
  exists results, calls, w'. unfold io_bind. rewrite Hmk.
  repeat split; try apply Hout; [exact Hrun|].
  now rewrite (loop_traced_erase process input_files ∅ [] w0), Hrun.
Qed.

(** When neither the making of the output directory nor the conversions
    change which inputs exist, the inputs missing at the start are the
    inputs missing when the loop reaches them. *)
Lemma stable_batch_skips_missing (process : PurePath.t -> io bool)
    (input_files : list string) (output_dir : string) (w w0 : World) :
  (forall f w1,
     path_exists (PurePath.to_str (PurePath.of_str f)) w1 = Ok true ->
     exists b w', process (PurePath.of_str f) w1 = (Ok b, w')) ->
  NoDup input_files ->
  mkdir_parents (PurePath.to_str (PurePath.of_str output_dir)) w = (Ok tt, w0) ->
  exists_answers input_files ->
  (forall pre f post results_f calls_f w_f,
     input_files = (pre ++ f :: post)%list ->
     Batch.loop_traced process pre ∅ [] w0 = (Ok (results_f, calls_f), w_f) ->
     path_exists (PurePath.to_str (PurePath.of_str f)) w_f
     = path_exists (PurePath.to_str (PurePath.of_str f)) w) ->
  missing_inputs_skipped input_files w
    (io_bind (mkdir_parents (PurePath.to_str (PurePath.of_str output_dir)))
       (fun _ => Batch.loop_traced process input_files ∅ []) w).
Proof.
  intros Hret Hnd Hmk Hans Hstable.
  destruct (batch_convert_traced_outcome process input_files output_dir w w0
              Hret Hnd Hmk Hans)
    as (results & calls & w' & Hrun & _ & Hsize & _ & _ & Hentry).
  exists results, calls, w'. split; [exact Hrun|]. split; [exact Hsize|].
  intros f Hf Hmissing.
  apply list_elem_of_split in Hf as (pre & post & Heq).
  destruct (Hentry pre f post Heq) as (rf & cf & wf & Hpre & He).
  unfold entry_of in He.
  rewrite (Hstable pre f post rf cf wf Heq Hpre), Hmissing in He.
  destruct He as [Hno Hres]. split; assumption.
Qed.




End BatchConvert.

(** ** The resolution parser, and more on the resize parser *)

Section Resolution.
Import VideoConverter.

Lemma int_of_str_error (s : string) (e : exn) :
  int_of_str s = Raise e -> e = ValueError.
Proof.
  unfold int_of_str. destruct (split_sign (strip_space s)) as [neg body].
  destruct (digits_us body 0 false); [|congruence].
  destruct (int_max_str_digits <? count_digits body); congruence.
Qed.

Lemma parse_resolution_raises (r : string) (e : exn) :
  _parse_resolution r = Raise e -> e = ValueError.
Proof.
  unfold _parse_resolution.
  destruct (contains_char "x" (lower r)); [|congruence].
  destruct (Py.split "x" (lower r)) as [|a [|b [|c rest]]]; try congruence;
    destruct (int_of_str a) eqn:Ha; cbn;
    try (intros [= <-]; exact (int_of_str_error _ _ Ha));
    destruct (int_of_str b) eqn:Hb; cbn;
    try (intros [= <-]; exact (int_of_str_error _ _ Hb));
    try congruence.
  destruct (int_of_str c) eqn:Hc; cbn; [congruence|].
  intros [= <-]. exact (int_of_str_error _ _ Hc).
Qed.

Lemma parse_resolution_of_dims (W H : Z) :
  count_digits (decimal W) <= int_max_str_digits ->
  count_digits (decimal H) <= int_max_str_digits ->
  _parse_resolution (decimal W ++ "x" ++ decimal H) = Ok (W, H).
Proof.
  intros HW HH. unfold _parse_resolution.
  rewrite dims_lower, dims_contains_x, dims_split.
  rewrite (int_of_str_decimal W HW), (int_of_str_decimal H HH). reflexivity.
Qed.

(** X1.  [_parse_resolution] reads back what the builder's own formatting
    writes: for all integers [W] and [H] that [str] writes, negative ones
    included (the integers below [10 ^ 4300] in absolute value are among
    them), the text [str(W) + 'x' + str(H)] parses to [(W, H)], and so does the
    text with a capital ['X']. *)
Theorem parse_resolution_round_trip (W H : Z) (width height : string) :
  str_of_int W = Ok width -> str_of_int H = Ok height ->
  _parse_resolution (width ++ "x" ++ height) = Ok (W, H) /\
  _parse_resolution (width ++ "X" ++ height) = Ok (W, H).
Proof.
  intros [-> HW]%str_of_int_Ok [-> HH]%str_of_int_Ok.
  split; [now apply parse_resolution_of_dims|].
  assert (lower (decimal W ++ "X" ++ decimal H)
          = decimal W ++ "x" ++ decimal H) as HX.
  { rewrite !lower_app, !decimal_lower. reflexivity. }
  unfold _parse_resolution.
  rewrite HX, dims_contains_x, dims_split.
  rewrite (int_of_str_decimal W HW), (int_of_str_decimal H HH). reflexivity.
Qed.

Lemma parse_resolution_round_trip_witness :
  _parse_resolution "1280x720" = Ok (1280, 720) /\
  _parse_resolution "1280X720" = Ok (1280, 720).
Proof.
  apply (parse_resolution_round_trip 1280 720 "1280" "720"); reflexivity.
Defined.

(** X2.  The only exception [_parse_resolution] raises is [ValueError].
    It raises it for every text without an ['x'] or ['X'], and for every
    text that splits into more than two parts at that letter. *)
Theorem parse_resolution_rejects (r : string) :
  (forall e, _parse_resolution r = Raise e -> e = ValueError) /\
  (contains_char "x" (lower r) = false -> _parse_resolution r = Raise ValueError) /\
  ((2 < length (Py.split "x" (lower r)))%nat ->
   _parse_resolution r = Raise ValueError).
Proof.
  split; [intros e; apply parse_resolution_raises|]. split.
  - intros Hx. unfold _parse_resolution. now rewrite Hx.
  - intros Hlen.
    destruct (_parse_resolution r) as [[w h]|e] eqn:Hr.
    + exfalso. unfold _parse_resolution in Hr.
      destruct (contains_char "x" (lower r)); [|discriminate].
      destruct (Py.split "x" (lower r)) as [|a [|b [|c rest]]];
        cbn [length] in Hlen; try lia.
      destruct (int_of_str a); cbn in Hr; [|discriminate].
      destruct (int_of_str b); cbn in Hr; [|discriminate].
      destruct (int_of_str c); cbn in Hr; discriminate.
    + now rewrite (parse_resolution_raises r e Hr).
Qed.

Lemma parse_resolution_rejects_witness :
  _parse_resolution "1280" = Raise ValueError /\
  _parse_resolution "1x2x3" = Raise ValueError.
Proof.
  destruct (parse_resolution_rejects "1280") as (_ & H1 & _).
  destruct (parse_resolution_rejects "1x2x3") as (_ & _ & H2).
  split; [apply H1; reflexivity | apply H2; vm_compute; lia].
Defined.

End Resolution.

Section ResizeMore.
Import ImageConverter.

Lemma dims_no_percent_end (W H : Z) :
  endswith_char "%" (decimal W ++ "x" ++ decimal H) = false.
Proof.
  apply endswith_char_absent.
  rewrite contains_char_app, append_cons, append_nil_l. cbn [contains_char].
  rewrite decimal_no_percent, decimal_no_percent. reflexivity.
Qed.

Lemma parse_resize_of_dims (W H : Z) (original_size : Z * Z) :
  count_digits (decimal W) <= int_max_str_digits ->
  count_digits (decimal H) <= int_max_str_digits ->
  _parse_resize (decimal W ++ "x" ++ decimal H) original_size = Ok (W, H).
Proof.
  intros HW HH. destruct original_size as [w0 h0]. unfold _parse_resize.
  rewrite dims_no_percent_end, dims_lower, dims_contains_x, dims_split.
  cbn [part nth].
  rewrite !decimal_truthy, (int_of_str_decimal W HW), (int_of_str_decimal H HH).
  reflexivity.
Qed.

Lemma parse_resize_of_dims_inv (W H : Z) (original_size new_size : Z * Z) :
  _parse_resize (decimal W ++ "x" ++ decimal H) original_size = Ok new_size ->
  new_size = (W, H).
Proof.
  destruct original_size as [w0 h0]. unfold _parse_resize.
  rewrite dims_no_percent_end, dims_lower, dims_contains_x, dims_split.
  cbn [part nth]. rewrite !decimal_truthy.
  destruct (int_of_str (decimal W)) as [n|] eqn:HW; [|discriminate].
  destruct (int_of_str (decimal H)) as [m|] eqn:HH; [|discriminate].
  cbn [mbind result_bind rbind]. intros [= <-].
  now rewrite (int_of_str_decimal_inv W n HW), (int_of_str_decimal_inv H m HH).
Qed.

(** X3.  For an explicit resize specification [str(W) + 'x' + str(H)],
    with [W] and [H] integers that [str] writes (at most 4300 digits),
    [_parse_resize] returns [(W, H)] whatever the original size is, for
    the separator in either case. *)
Theorem parse_resize_explicit_dimensions (W H : Z) (width height : string)
    (original_size : Z * Z) :
  str_of_int W = Ok width -> str_of_int H = Ok height ->
  _parse_resize (width ++ "x" ++ height) original_size = Ok (W, H) /\
  _parse_resize (width ++ "X" ++ height) original_size = Ok (W, H).
Proof.
  intros [-> HW]%str_of_int_Ok [-> HH]%str_of_int_Ok.
  split; [now apply parse_resize_of_dims|].
  destruct original_size as [w0 h0].
  assert (lower (decimal W ++ "X" ++ decimal H)
          = decimal W ++ "x" ++ decimal H) as HX.
  { rewrite !lower_app, !decimal_lower. reflexivity. }
  assert (endswith_char "%" (decimal W ++ "X" ++ decimal H) = false) as HE.
  { apply endswith_char_absent.
    rewrite contains_char_app, append_cons, append_nil_l. cbn [contains_char].
    rewrite decimal_no_percent, decimal_no_percent. reflexivity. }
  unfold _parse_resize.
  rewrite HE, HX, dims_contains_x, dims_split.
  cbn [part nth].
  rewrite !decimal_truthy, (int_of_str_decimal W HW), (int_of_str_decimal H HH).
  reflexivity.
Qed.

Lemma parse_resize_explicit_dimensions_witness :
  _parse_resize "800x600" (1600, 1200) = Ok (800, 600) /\
  _parse_resize "800X600" (1600, 1200) = Ok (800, 600).
Proof.
  apply (parse_resize_explicit_dimensions 800 600 "800" "600" (1600, 1200));
    reflexivity.
Defined.

(** X4.  [_parse_resize] reads the first two parts of an explicit
    specification and ignores the rest: [a x b x c] gives what [a x b]
    gives, raising included, when [a] and [b] hold no separator and
    neither text ends in a percent sign. *)
Theorem parse_resize_ignores_extra_parts (a b c : string) (original_size : Z * Z) :
  contains_char "x" (lower a) = false ->
  contains_char "x" (lower b) = false ->
  endswith_char "%" (a ++ "x" ++ b) = false ->
  endswith_char "%" (a ++ "x" ++ b ++ "x" ++ c) = false ->
  _parse_resize (a ++ "x" ++ b ++ "x" ++ c) original_size
  = _parse_resize (a ++ "x" ++ b) original_size.
Proof.
  intros Ha Hb He1 He2. destruct original_size as [w0 h0].
  unfold _parse_resize. rewrite He1, He2.
  assert (lower (a ++ "x" ++ b ++ "x" ++ c)
          = lower a ++ String "x" (lower b ++ String "x" (lower c))) as ->.
  { rewrite !lower_app. reflexivity. }
  assert (lower (a ++ "x" ++ b) = lower a ++ String "x" (lower b)) as ->.
  { rewrite !lower_app. reflexivity. }
  rewrite !contains_char_app. cbn [contains_char]. rewrite !Ascii.eqb_refl.
  cbn [orb]. rewrite !orb_true_r.
  rewrite !(split_app_sep "x" (lower a)) by exact Ha.
  rewrite (split_app_sep "x" (lower b)) by exact Hb.
  rewrite (split_absent "x" (lower b) Hb).
  reflexivity.
Qed.

Lemma parse_resize_ignores_extra_parts_witness :
  _parse_resize "800x600x3" (1600, 1200) = Ok (800, 600).
Proof.
  change "800x600x3" with ("800" ++ "x" ++ "600" ++ "x" ++ "3").
  rewrite (parse_resize_ignores_extra_parts "800" "600" "3" (1600, 1200));
    vm_compute; reflexivity.
Defined.

(** X5.  A specification that is a single integer [W] (no percent sign at
    the end, no separator): on an original of width 0 [_parse_resize]
    raises [ZeroDivisionError]; whenever it returns, the width is [W] and
    the height is [int(W * (height / width))], computed in binary64. *)
Theorem parse_resize_single_number (s : string) (W w0 h0 : Z) :
  endswith_char "%" s = false ->
  contains_char "x" (lower s) = false ->
  int_of_str s = Ok W ->
  (w0 = 0 -> _parse_resize s (w0, h0) = Raise ZeroDivisionError) /\
  (forall new_width new_height,
     _parse_resize s (w0, h0) = Ok (new_width, new_height) ->
     new_width = W /\
     exists aspect_ratio,
       int_truediv h0 w0 = Ok aspect_ratio /\
       scale_int W aspect_ratio = Ok new_height).
Proof.
  intros Hp Hx Hs. unfold _parse_resize. rewrite Hp, Hx, Hs.
  cbn [mbind result_bind rbind]. split.
  - intros ->. unfold int_truediv. now destruct h0.
  - intros nw nh. destruct (int_truediv h0 w0) as [ar|e]; [|discriminate].
    cbn [mbind result_bind rbind].
    destruct (scale_int W ar) as [h|e] eqn:Hh; [|discriminate].
    cbn [mbind result_bind rbind]. intros [= <- <-]. split; [reflexivity|]. eauto.
Qed.

Lemma parse_resize_single_number_witness :
  _parse_resize "800" (0, 1200) = Raise ZeroDivisionError.
Proof.
  apply (parse_resize_single_number "800" 800 0 1200); reflexivity.
Defined.

End ResizeMore.

(** ** More on the video command builder *)

Section CommandMore.
Import VideoConverter.

(** X6.  Every vector that [_build_ffmpeg_command] returns starts with
    the encoder path, ['-i'] and the input path, ends with ['-y'] and the
    output path, and selects a video encoder in between; a codec name
    outside the four of the table selects [libx264]. *)
Theorem build_command_frame (self : t) (input_path output_path : string)
    (o : options) (cmd : list string) :
  _build_ffmpeg_command self input_path output_path o = Ok cmd ->
  exists ffmpeg args,
    given (ffmpeg_path self) = Some ffmpeg /\
    cmd = ([ffmpeg; "-i"; input_path] ++ args ++ ["-y"; output_path])%list /\
    adjacent "-c:v" (default "libx264" (video_codec_map !! codec_of o)) args /\
    (codec_of o ∉ ["h264"; "h265"; "vp9"; "av1"] -> adjacent "-c:v" "libx264" args).
Proof.
  rewrite build_blocks.
  destruct (given (ffmpeg_path self)) as [ffmpeg|]; [|discriminate].
  destruct (quality_args self o) as [quality|]; [|discriminate].
  destruct (scale_args o) as [scale|]; [|discriminate].
  destruct (rate_args o) as [rate|]; [|discriminate].
  cbn [mbind result_bind rbind]. intros [= <-].
  exists ffmpeg,
    (trim_args o ++ video_codec_args o ++ quality ++ bitrate_args o ++
     scale ++ rate ++ audio_args o ++ speed_args o ++ container_args o)%list.
  split; [reflexivity|]. split; [now rewrite <- !app_assoc|].
  assert (adjacent "-c:v" (default "libx264" (video_codec_map !! codec_of o))
            (trim_args o ++ video_codec_args o ++ quality ++
             bitrate_args o ++ scale ++ rate ++ audio_args o ++
             speed_args o ++ container_args o)%list) as Hadj.
  { apply adjacent_app_r, adjacent_app_l. unfold video_codec_args.
    apply adjacent_here. }
  split; [exact Hadj|].
  intros Hc.
  assert (video_codec_map !! codec_of o = None) as Hnone.
  { unfold video_codec_map. apply not_elem_of_list_to_map_1.
    cbn [fmap list_fmap fst]. exact Hc. }
  now rewrite Hnone in Hadj.
Qed.

Lemma build_command_frame_witness :
  exists ffmpeg args,
    given (ffmpeg_path (init (encoder_at "/usr/bin/ffmpeg"))) = Some ffmpeg /\
    [ "/usr/bin/ffmpeg"; "-i"; "in.mov"; "-c:v"; "libx265"; "-crf"; "23";
      "-preset"; "medium"; "-vf"; "scale=1280:720"; "-r"; "30"; "-an";
      "-preset"; "medium"; "-movflags"; "+faststart"; "-y"; "out.mp4" ]
    = ([ffmpeg; "-i"; "in.mov"] ++ args ++ ["-y"; "out.mp4"])%list.
Proof.
  destruct (build_command_frame (init (encoder_at "/usr/bin/ffmpeg"))
              "in.mov" "out.mp4" h265_720p
              [ "/usr/bin/ffmpeg"; "-i"; "in.mov"; "-c:v"; "libx265"; "-crf"; "23";
                "-preset"; "medium"; "-vf"; "scale=1280:720"; "-r"; "30"; "-an";
                "-preset"; "medium"; "-movflags"; "+faststart"; "-y"; "out.mp4" ])
    as (ffmpeg & args & Hff & Hcmd & _).
  - vm_compute. reflexivity.
  - exists ffmpeg, args. split; assumption.
Defined.

(** With the preset table of [__init__] the quality block is always
    produced. *)
Lemma quality_args_init (which : string -> option string) (o : options) :
  exists quality, quality_args (init which) o = Ok quality.
Proof.
  unfold quality_args.
  destruct (quality_presets (init which) !! default "medium" (quality o))
    as [ps|] eqn:Hps; [|eauto].
  destruct (negb (String.eqb (codec_of o) "av1")); [|eauto].
  rewrite (video_presets_crf which _ ps Hps). eauto.
Qed.

Lemma scale_args_raises (o : options) (e : exn) :
  scale_args o = Raise e <->
  exists r, given (resolution o) = Some r /\ _parse_resolution r = Raise e.
Proof.
  unfold scale_args. destruct (given (resolution o)) as [r|].
  - destruct (_parse_resolution r) as [[width height]|e'] eqn:Hr;
      cbn [mbind result_bind rbind].
    + destruct (parse_resolution_writable r width height Hr) as [-> ->].
      cbn [mbind result_bind rbind]. split; [discriminate|].
      intros (r' & [= <-] & Hr'). congruence.
    + split.
      * intros [= <-]. eauto.
      * intros (r' & [= <-] & Hr'). congruence.
  - split; [discriminate|]. intros (r' & ? & _). discriminate.
Qed.

Lemma rate_args_raises (o : options) (e : exn) :
  rate_args o = Raise e <->
  exists n, given_int (fps o) = Some n /\ str_of_int n = Raise e.
Proof.
  unfold rate_args. destruct (given_int (fps o)) as [n|].
  - destruct (str_of_int n) as [text|e'] eqn:Hn; cbn [mbind result_bind rbind].
    + split; [discriminate|]. intros (n' & [= <-] & Hn'). congruence.
    + split.
      * intros [= <-]. eauto.
      * intros (n' & [= <-] & Hn'). congruence.
  - split; [discriminate|]. intros (n' & ? & _). discriminate.
Qed.

(** X7.  The builder of a converter made by [__init__] raises in exactly
    these cases: [RuntimeError] when no encoder was found; and, when one
    was found, [ValueError] from a [resolution] option that
    [_parse_resolution] rejects or from an [fps] option of more than 4300
    digits, which [str] does not write.  No other option can make it
    raise. *)
Theorem build_command_errors (which : string -> option string)
    (input_path output_path : string) (o : options) (e : exn) :
  _build_ffmpeg_command (init which) input_path output_path o = Raise e <->
  (given (which "ffmpeg") = None /\ e = RuntimeError) \/
  (given (which "ffmpeg") <> None /\ e = ValueError /\
   ((exists r, given (resolution o) = Some r /\
               _parse_resolution r = Raise ValueError) \/
    (exists n, given_int (fps o) = Some n /\
               10 ^ int_max_str_digits <= Z.abs n))).
Proof.
  rewrite build_blocks. cbn [ffmpeg_path init].
  destruct (given (which "ffmpeg")) as [ffmpeg|].
  2:{ split.
      - intros [= <-]. now left.
      - intros [[_ ->] | [Hne _]]; [reflexivity | congruence]. }
  destruct (quality_args_init which o) as (quality & ->).
  cbn [mbind result_bind rbind].
  destruct (scale_args o) as [scale|e1] eqn:Hsc; cbn [mbind result_bind rbind].
  - destruct (rate_args o) as [rate|e2] eqn:Hra; cbn [mbind result_bind rbind].
    + split; [discriminate|].
      intros [[? _] | (_ & _ & [Hres | (n & Hn & Hbig)])]; [discriminate | |].
      * apply scale_args_raises in Hres. congruence.
      * assert (rate_args o = Raise ValueError) as Hra'; [|congruence].
        apply rate_args_raises. exists n. split; [exact Hn|].
        now apply str_of_int_out_of_range.
    + pose proof (rate_args_error o e2 Hra) as ->.
      split.
      * intros [= <-]. right. split; [discriminate|]. split; [reflexivity|].
        right. apply rate_args_raises in Hra as (n & Hn & Hstr).
        apply str_of_int_raises_iff in Hstr as [_ Hbig]. eauto.
      * intros [[? _] | (_ & -> & _)]; [discriminate | reflexivity].
  - pose proof Hsc as Hsc'. apply scale_args_raises in Hsc' as (r & Hr & Hp).
    pose proof (parse_resolution_raises r e1 Hp) as ->.
    split.
    + intros [= <-]. right. split; [discriminate|]. split; [reflexivity|].
      left. eauto.
    + intros [[? _] | (_ & -> & _)]; [discriminate | reflexivity].
Qed.

(** X8.  For the codecs [h264] and [h265] and a quality name of the
    table, the vector holds ['-preset'] twice: first the preset of the
    quality entry, right after ['-crf'] and its value, and later the value
    of the [preset] option, ['medium'] by default. *)
Theorem build_command_two_presets (self : t) (input_path output_path : string)
    (o : options) (ps : preset_settings) (cmd : list string) :
  codec_of o ∈ ["h264"; "h265"] ->
  quality_presets self !! default "medium" (quality o) = Some ps ->
  _build_ffmpeg_command self input_path output_path o = Ok cmd ->
  exists head mid tail,
    cmd = (head ++ ["-crf"; decimal (crf ps); "-preset"; preset ps] ++ mid ++
           ["-preset"; default "medium" (speed_preset o)] ++ tail)%list.
Proof.
  intros Hc Hps. rewrite build_blocks.
  destruct (given (ffmpeg_path self)) as [ffmpeg|]; [|discriminate].
  assert (String.eqb (codec_of o) "av1" = false) as Hav1.
  { apply String.eqb_neq. intros Heq. rewrite Heq in Hc.
    apply elem_of_cons in Hc as [Hc | Hc]; [discriminate|].
    apply elem_of_cons in Hc as [Hc | Hc]; [discriminate|].
    by apply elem_of_nil in Hc. }
  unfold quality_args, speed_args. rewrite Hps, Hav1.
  rewrite (bool_decide_eq_true_2 _ Hc). cbn [negb].
  destruct (str_of_int (crf ps)) as [crf_value|] eqn:Hcrf; [|discriminate].
  apply str_of_int_Ok in Hcrf as [-> _].
  destruct (scale_args o) as [scale|]; [|discriminate].
  destruct (rate_args o) as [rate|]; [|discriminate].
  cbn [mbind result_bind rbind]. intros [= <-].
  exists ([ffmpeg; "-i"; input_path] ++ trim_args o ++ video_codec_args o)%list,
    (bitrate_args o ++ scale ++ rate ++ audio_args o)%list,
    (container_args o ++ ["-y"; output_path])%list.
  rewrite <- !app_assoc. reflexivity.
Qed.

Lemma build_command_two_presets_witness :
  exists head mid tail,
    [ "/usr/bin/ffmpeg"; "-i"; "in.mov"; "-c:v"; "libx265"; "-crf"; "23";
      "-preset"; "medium"; "-vf"; "scale=1280:720"; "-r"; "30"; "-an";
      "-preset"; "medium"; "-movflags"; "+faststart"; "-y"; "out.mp4" ]
    = (head ++ ["-crf"; "23"; "-preset"; "medium"] ++ mid ++
       ["-preset"; "medium"] ++ tail)%list.
Proof.
  apply (build_command_two_presets (init (encoder_at "/usr/bin/ffmpeg"))
           "in.mov" "out.mp4" h265_720p {| crf := 23; preset := "medium" |}).
  - apply list_elem_of_further, list_elem_of_here.
  - reflexivity.
  - vm_compute. reflexivity.
Defined.

(** X9.  For a converter made by [__init__] that found an encoder, with
    the option that [resize] sets, [resolution = str(W) + 'x' + str(H)]
    for integers [W] and [H] that [str] writes (at most 4300 digits), and
    an [fps] option that is unset or that [str] writes, the builder
    returns a vector in which ['-vf'] is followed by [scale=W:H],
    whatever the other options are. *)
Theorem resize_scale_round_trip (which : string -> option string)
    (ffmpeg input_path output_path : string) (o : options) (W H : Z)
    (width height : string) :
  which "ffmpeg" = Some ffmpeg -> ffmpeg <> "" ->
  str_of_int W = Ok width -> str_of_int H = Ok height ->
  (forall n, given_int (fps o) = Some n -> is_ok (str_of_int n) = true) ->
  exists cmd,
    _build_ffmpeg_command (init which) input_path output_path
      (set_resolution (width ++ "x" ++ height) o) = Ok cmd /\
    adjacent "-vf" ("scale=" ++ width ++ ":" ++ height) cmd.
Proof.
  intros Hw Hne HW HH Hfps. rewrite build_blocks. cbn [ffmpeg_path init].
  rewrite Hw, (given_nonempty _ Hne).
  destruct (quality_args_init which (set_resolution (width ++ "x" ++ height) o))
    as (quality & ->).
  assert (scale_args (set_resolution (width ++ "x" ++ height) o)
          = Ok ["-vf"; "scale=" ++ width ++ ":" ++ height]) as ->.
  { unfold scale_args. destruct o. cbn [set_resolution resolution].
    pose proof HW as [-> HW']%str_of_int_Ok.
    pose proof HH as [-> HH']%str_of_int_Ok.
    rewrite given_nonempty.
    - rewrite (parse_resolution_of_dims W H HW' HH').
      cbn [mbind result_bind rbind]. rewrite HW. cbn [mbind result_bind rbind].
      rewrite HH. reflexivity.
    - intros Heq. pose proof (dims_contains_x W H) as Hx.
      rewrite Heq in Hx. discriminate. }
  destruct (rate_args_accepts (set_resolution (width ++ "x" ++ height) o))
    as (rate & ->); [destruct o; exact Hfps|].
  cbn [mbind result_bind rbind]. eexists. split; [reflexivity|].
  do 5 apply adjacent_app_r. apply adjacent_app_l, adjacent_here.
Qed.

Lemma resize_scale_round_trip_witness :
  exists cmd,
    _build_ffmpeg_command (init (encoder_at "/usr/bin/ffmpeg")) "in.mov" "out.mp4"
      (set_resolution "640x480" no_options) = Ok cmd /\
    adjacent "-vf" "scale=640:480" cmd.
Proof.
  apply (resize_scale_round_trip (encoder_at "/usr/bin/ffmpeg") "/usr/bin/ffmpeg"
           "in.mov" "out.mp4" no_options 640 480 "640" "480");
    [reflexivity | discriminate | reflexivity | reflexivity |].
  intros n Hn. discriminate.
Defined.

End CommandMore.

(** ** The other methods of the video converter *)

Section VideoMethods.
Context `{Platform}.
Import VideoConverter.

(** X10.  When no encoder was found, or the existence test of the input
    path answers [False], the video [convert] returns [False] and leaves
    the world as it was: no directory is made and no process is started.
    When an encoder was found and the existence test raises, [convert]
    raises the same exception, in a world left as it was: the test is
    made before the [try] block. *)
Theorem video_convert_rejects_early (self : t) (input_path output_path : string)
    (o : options) (w : World) :
  (given (ffmpeg_path self) = None \/
   path_exists (PurePath.to_str (PurePath.of_str input_path)) w = Ok false ->
   convert self input_path output_path o w = (Ok false, w)) /\
  (forall e,
     given (ffmpeg_path self) <> None ->
     path_exists (PurePath.to_str (PurePath.of_str input_path)) w = Raise e ->
     convert self input_path output_path o w = (Raise e, w)).
Proof.
  unfold convert, _check_dependencies, io_bind, io_read. cbv beta. split.
  - intros Hearly.
    destruct (given (ffmpeg_path self)); cbn [negb]; [|reflexivity].
    destruct Hearly as [?| ->]; [discriminate | reflexivity].
  - intros e Hff Hin.
    destruct (given (ffmpeg_path self)); cbn [negb]; [|congruence].
    now rewrite Hin.
Qed.

(** X11.  When the encoder and the input are there but the command
    cannot be built, the video [convert] returns [False] after the attempt
    to make the output directory, which is the only effect: the encoder is
    not started. *)
Theorem video_convert_invalid_options (self : t)
    (input_path output_path : string) (o : options) (w : World) (e : exn) :
  _check_dependencies self = true ->
  path_exists (PurePath.to_str (PurePath.of_str input_path)) w = Ok true ->
  _build_ffmpeg_command self input_path output_path o = Raise e ->
  convert self input_path output_path o w
  = (Ok false,
     snd (mkdir_parents
            (PurePath.to_str (PurePath.parent (PurePath.of_str output_path)))
            w)).
Proof.
  intros Hdep Hin Hcmd. unfold convert, io_bind, io_read.
  rewrite Hdep. cbn [negb]. rewrite Hin. cbn [negb].
  unfold try_except, convert_try, io_bind, io_lift, io_ret.
  destruct (mkdir_parents _ w) as [[[]|e1] w1]; [|reflexivity].
  rewrite Hcmd. reflexivity.
Qed.

Lemma run_check_outcome (cmd : list string) (w : World) :
  subprocess_run_check cmd w =
  match run_encoder cmd w with
  | (Ok returncode, w') =>
      if returncode =? 0 then (Ok tt, w') else (Raise CalledProcessError, w')
  | (Raise e, w') => (Raise e, w')
  end.
Proof.
  unfold subprocess_run_check, io_bind.
  destruct (run_encoder cmd w) as [[rc|e] w']; [|reflexivity].
  now destruct (rc =? 0).
Qed.

Lemma run_and_report (cmd : list string) (w : World) :
  try_except_called_process
    (io_bind (subprocess_run_check cmd) (fun _ => io_ret true))
    (fun e => io_ret false) w =
  match run_encoder cmd w with
  | (Ok returncode, w') => (Ok (returncode =? 0), w')
  | (Raise e, w') =>
      if is_CalledProcessError e then (Ok false, w') else (Raise e, w')
  end.
Proof.
  unfold try_except_called_process, io_bind. rewrite run_check_outcome.
  destruct (run_encoder cmd w) as [[rc|e] w']; [|reflexivity].
  now destruct (rc =? 0).
Qed.

(** X12.  [extract_audio] returns [False] at once when no encoder was
    found.  Otherwise it runs the encoder on the eight-word command of
    the source, and returns [True] exactly when the exit code is 0; it
    checks neither the input nor the output file.  An exception of the
    process start other than [CalledProcessError] reaches the caller. *)
Theorem extract_audio_outcome (self : t)
    (input_path output_path audio_format : string) (w : World) :
  match given (ffmpeg_path self) with
  | None => extract_audio self input_path output_path audio_format w = (Ok false, w)
  | Some ffmpeg =>
      let cmd := [ffmpeg; "-i"; input_path; "-vn"; "-acodec";
                  if String.eqb audio_format "mp3" then "libmp3lame"
                  else audio_format;
                  "-y"; output_path] in
      (forall returncode w',
         run_encoder cmd w = (Ok returncode, w') ->
         extract_audio self input_path output_path audio_format w
         = (Ok (returncode =? 0), w')) /\
      (forall e w',
         run_encoder cmd w = (Raise e, w') ->
         is_CalledProcessError e = false ->
         extract_audio self input_path output_path audio_format w
         = (Raise e, w'))
  end.
Proof.
  unfold extract_audio. destruct (given (ffmpeg_path self)) as [ffmpeg|];
    [|reflexivity].
  cbv zeta. unfold extract_audio_command. rewrite run_and_report. split.
  - intros rc w' ->. reflexivity.
  - intros e w' -> ->. reflexivity.
Qed.

(** X13.  The video [create_thumbnail] behaves in the same way on its
    nine-word command: [False] without an encoder, else [True] exactly for
    exit code 0, and exceptions other than [CalledProcessError] reach the
    caller. *)
Theorem video_thumbnail_outcome (self : t)
    (input_path output_path timestamp : string) (w : World) :
  match given (ffmpeg_path self) with
  | None => create_thumbnail self input_path output_path timestamp w = (Ok false, w)
  | Some ffmpeg =>
      let cmd := [ffmpeg; "-i"; input_path; "-ss"; timestamp; "-vframes"; "1";
                  "-y"; output_path] in
      (forall returncode w',
         run_encoder cmd w = (Ok returncode, w') ->
         create_thumbnail self input_path output_path timestamp w
         = (Ok (returncode =? 0), w')) /\
      (forall e w',
         run_encoder cmd w = (Raise e, w') ->
         is_CalledProcessError e = false ->
         create_thumbnail self input_path output_path timestamp w
         = (Raise e, w'))
  end.
Proof.
  unfold create_thumbnail. destruct (given (ffmpeg_path self)) as [ffmpeg|];
    [|reflexivity].
  cbv zeta. unfold thumbnail_command. rewrite run_and_report. split.
  - intros rc w' ->. reflexivity.
  - intros e w' -> ->. reflexivity.
Qed.

End VideoMethods.

(** ** The other methods of the image converter *)

Section ImageMethods.
Context `{Platform}.
Import ImageConverter.

(** X14.  When the existence test of the input path answers [False], or
    it answers and the suffix of the input in lower case is not a
    supported input format, the image [convert] returns [False] and leaves
    the world as it was: nothing is opened, made or saved.  When the
    existence test raises, [convert] raises the same exception, even for
    an unsupported suffix: the test is made first, before the [try]
    block. *)
Theorem image_convert_rejects_early (self : t) (input_path output_path : string)
    (o : options) (w : World) :
  (path_exists (PurePath.to_str (PurePath.of_str input_path)) w = Ok false \/
   (exists found,
      path_exists (PurePath.to_str (PurePath.of_str input_path)) w = Ok found) /\
   lower (PurePath.suffix (PurePath.of_str input_path))
     ∉ supported_input_formats self ->
   convert self input_path output_path o w = (Ok false, w)) /\
  (forall e,
     path_exists (PurePath.to_str (PurePath.of_str input_path)) w = Raise e ->
     convert self input_path output_path o w = (Raise e, w)).
Proof.
  unfold convert, io_bind, io_read. cbv beta. cbn [_check_dependencies negb].
  split.
  - intros [-> | [[found ->] Hsuffix]]; [reflexivity|].
    destruct found; cbn [negb]; [|reflexivity].
    now rewrite (bool_decide_eq_false_2 _ Hsuffix).
  - intros e ->. reflexivity.
Qed.

(** X15.  With a [format] option that is not a key of the output table,
    an existing input of a supported suffix is not converted: [convert]
    returns [False], and its only effect is the attempt to make the output
    directory. *)
Theorem image_convert_unsupported_format (self : t)
    (input_path output_path output_format : string) (o : options) (w : World) :
  path_exists (PurePath.to_str (PurePath.of_str input_path)) w = Ok true ->
  lower (PurePath.suffix (PurePath.of_str input_path))
    ∈ supported_input_formats self ->
  given (format o) = Some output_format ->
  supported_output_formats self !! lower output_format = None ->
  convert self input_path output_path o w
  = (Ok false,
     snd (mkdir_parents
            (PurePath.to_str (PurePath.parent (PurePath.of_str output_path)))
            w)).
Proof.
  intros Hin Hsuffix Hfmt Hnone. unfold convert, io_bind, io_read. cbv beta.
  cbn [_check_dependencies negb]. rewrite Hin. cbn [negb].
  rewrite (bool_decide_eq_true_2 _ Hsuffix). cbn [negb].
  unfold try_except, convert_try, io_bind, io_read, io_ret.
  destruct (mkdir_parents _ w) as [[[]|e1] w1]; [|reflexivity].
  cbn [snd]. destruct (image_open input_path w1) as [img|e2]; [|reflexivity].
  unfold output_format_name. rewrite Hfmt, Hnone. reflexivity.
Qed.

Lemma finish_true (self : t) (img : Image) (output_path : string)
    (format_name : option string) (o : options) (w w' : World) :
  finish self img output_path format_name o w = (Ok true, w') ->
  exists img',
    image_save img' output_path format_name
      (prepare_save_options format_name (resolve_quality self o) o) w
    = (Ok tt, w').
Proof.
  unfold finish, io_bind, io_lift, io_ret.
  destruct (_optimize_image img format_name o) as [img1|e]; [|discriminate].
  destruct (flag (strip_metadata o)).
  - destruct (strip_exif img1) as [img2|e]; [|discriminate].
    destruct (image_save img2 _ _ _ w) as [[[]|e] w2] eqn:Hsave; [|discriminate].
    intros [= <-]. eauto.
  - destruct (image_save img1 _ _ _ w) as [[[]|e] w2] eqn:Hsave; [|discriminate].
    intros [= <-]. eauto.
Qed.

Lemma add_watermark_world (img : Image) (watermark_path : string) (o : options)
    (w : World) :
  exists img', _add_watermark img watermark_path o w = (Ok img', w).
Proof.
  unfold _add_watermark.
  destruct (_add_watermark_try img watermark_path o w) as [img' [e|]]; eauto.
Qed.

Lemma convert_true_saved (self : t) (input_path output_path : string)
    (o : options) (w w' : World) :
  convert self input_path output_path o w = (Ok true, w') ->
  exists img format_name,
    image_save img output_path format_name
      (prepare_save_options format_name (resolve_quality self o) o)
      (snd (mkdir_parents
              (PurePath.to_str (PurePath.parent (PurePath.of_str output_path)))
              w))
    = (Ok tt, w').
Proof.
  unfold convert, io_bind, io_read. cbv beta. cbn [_check_dependencies negb].
  destruct (path_exists _ w) as [found|]; [|discriminate].
  destruct (negb found); [discriminate|].
  destruct (negb (bool_decide _)); [discriminate|].
  unfold try_except, convert_try, io_bind, io_read.
  destruct (mkdir_parents _ w) as [[[]|e1] w1]; [|discriminate].
  cbn [snd]. destruct (image_open input_path w1) as [img0|e2]; [|discriminate].
  destruct (output_format_name self output_path o (image_format img0))
    as [format_name|]; [|discriminate].
  assert (forall img2 : Image,
            (let (r, w2) :=
               (let (r0, w3) :=
                  match given (watermark o) with
                  | Some watermark_path => _add_watermark img2 watermark_path o
                  | None => io_ret img2
                  end w1 in
                match r0 with
                | Ok a => finish self a output_path format_name o w3
                | Raise e => (Raise e, w3)
                end) in
             match r with
             | Ok a => (Ok a, w2)
             | Raise e => io_ret false w2
             end) = (Ok true, w') ->
            exists img format_name0,
              image_save img output_path format_name0
                (prepare_save_options format_name0 (resolve_quality self o) o) w1
              = (Ok tt, w')) as Hwm.
  { intros img2. destruct (given (watermark o)) as [p|].
    - destruct (add_watermark_world img2 p o w1) as (img3 & ->).
      destruct (finish self img3 output_path format_name o w1)
        as [[b|e] w2] eqn:Hf; [|discriminate].
      intros [= -> <-].
      destruct (finish_true _ _ _ _ _ _ _ Hf) as (img4 & Hs). eauto.
    - unfold io_ret at 1.
      destruct (finish self img2 output_path format_name o w1)
        as [[b|e] w2] eqn:Hf; [|discriminate].
      intros [= -> <-].
      destruct (finish_true _ _ _ _ _ _ _ Hf) as (img4 & Hs). eauto. }
  destruct (given (resize o)) as [spec|]; unfold io_lift.
  - destruct (_parse_resize spec (image_size img0) ≫= _) as [img1|e3];
      [|discriminate].
    destruct (_apply_filters img1 o) as [img2|e4]; [|discriminate].
    apply Hwm.
  - unfold io_ret at 1.
    destruct (_apply_filters img0 o) as [img2|e4]; [|discriminate].
    apply Hwm.
Qed.

(** X16.  The image [convert] returns [True] only when the input exists
    and has a supported suffix, the output directory could be made, and a
    save to the output path succeeded in the world that left, with the
    save parameters that [prepare_save_options] gives for the format and
    the resolved quality; the world returned is the one the save left. *)
Theorem image_convert_success_saved (self : t) (input_path output_path : string)
    (o : options) (w w' : World) :
  convert self input_path output_path o w = (Ok true, w') ->
  path_exists (PurePath.to_str (PurePath.of_str input_path)) w = Ok true /\
  lower (PurePath.suffix (PurePath.of_str input_path))
    ∈ supported_input_formats self /\
  exists w1 img format_name,
    mkdir_parents
      (PurePath.to_str (PurePath.parent (PurePath.of_str output_path))) w
    = (Ok tt, w1) /\
    image_save img output_path format_name
      (prepare_save_options format_name (resolve_quality self o) o) w1
    = (Ok tt, w').
Proof.
  intros Hc.
  destruct (convert_true_saved _ _ _ _ _ _ Hc) as (img & format_name & Hsave).
  unfold convert, io_bind, io_read in Hc. cbv beta in Hc.
  cbn [_check_dependencies negb] in Hc.
  destruct (path_exists _ w) as [[|]|]; cbn [negb] in Hc; try discriminate.
  split; [reflexivity|].
  destruct (bool_decide _) eqn:Hsuffix in Hc; cbn [negb] in Hc; [|discriminate].
  split; [exact (bool_decide_eq_true_1 _ Hsuffix)|].
  unfold try_except, convert_try, io_bind in Hc.
  destruct (mkdir_parents _ w) as [[[]|e] w1]; [|discriminate].
  exists w1, img, format_name. split; [reflexivity | exact Hsave].
Qed.

Lemma optimize_of_set_compress (format_name : option string) (q quality : pyval)
    (o : options) :
  format_name ∈ [Some "JPEG"; Some "PNG"; Some "WebP"] ->
  prepare_save_options format_name q (set_compress quality o) !! "optimize"
  = Some (VBool true).
Proof.
  intros Hf. destruct o. unfold prepare_save_options.
  cbn [set_compress optimize progressive].
  repeat (apply elem_of_cons in Hf as [-> | Hf]);
    [ | | | by apply elem_of_nil in Hf ]; simpl.
  - match goal with |- context [flag ?p] => destruct (flag p) end.
    + rewrite lookup_insert_ne by done. apply lookup_insert_eq.
    + apply lookup_insert_eq.
  - apply lookup_insert_eq.
  - apply lookup_insert_eq.
Qed.

(** X17.  When the image [compress] returns [True], an image was saved
    to the output path with [optimize = True] for a JPEG, PNG or WebP
    target, and for JPEG and WebP with the quality given to [compress],
    a name of the preset table being replaced by its number. *)
Theorem compress_forces_optimize (self : t) (input_path output_path : string)
    (quality : pyval) (o : options) (w w' : World) :
  compress_ self input_path output_path quality o w = (Ok true, w') ->
  exists img format_name params w1,
    image_save img output_path format_name params w1 = (Ok tt, w') /\
    (format_name ∈ [Some "JPEG"; Some "PNG"; Some "WebP"] ->
     params !! "optimize" = Some (VBool true)) /\
    (format_name ∈ [Some "JPEG"; Some "WebP"] ->
     params !! "quality"
     = Some (match quality with
             | VStr name =>
                 match quality_presets self !! name with
                 | Some n => VInt n
                 | None => quality
                 end
             | _ => quality
             end)).
Proof.
  unfold compress_. intros Hc.
  destruct (convert_true_saved _ _ _ _ _ _ Hc) as (img & fmt & Hsave).
  eexists img, fmt, _, _. split; [exact Hsave|]. split.
  - apply optimize_of_set_compress.
  - intros Hf.
    assert (resolve_quality self (set_compress quality o)
            = match quality with
              | VStr name =>
                  match quality_presets self !! name with
                  | Some n => VInt n
                  | None => quality
                  end
              | _ => quality
              end) as -> by (destruct o; reflexivity).
    unfold prepare_save_options.
    repeat (apply elem_of_cons in Hf as [-> | Hf]);
      [ | | by apply elem_of_nil in Hf ]; simpl.
    + match goal with |- context [flag ?p] => destruct (flag p) end;
        rewrite ?(lookup_insert_ne _ "progressive") by done;
        rewrite lookup_insert_ne by done; apply lookup_insert_eq.
    + rewrite lookup_insert_ne by done. apply lookup_insert_eq.
Qed.

(** X18.  The image [create_thumbnail] never raises.  It returns [True]
    exactly when the input could be opened, reduced to the given size, and
    saved to the output path, with no explicit format and the parameters
    [optimize = True] and [quality], the latter being the [quality] option
    as given (85 by default), a preset name not being looked up. *)
Theorem image_thumbnail_outcome (self : t) (input_path output_path : string)
    (size : Z * Z) (o : options) (w : World) :
  exists (b : bool) (w' : World),
    create_thumbnail self input_path output_path size o w = (Ok b, w') /\
    (b = true <->
     exists img img',
       image_open input_path w = Ok img /\
       image_thumbnail img size = Ok img' /\
       image_save img' output_path None
         (<["optimize" := VBool true]>
            (<["quality" := default (VInt 85) (quality o)]> ∅)) w
       = (Ok tt, w')).
Proof.
  unfold create_thumbnail, try_except, io_bind, io_read, io_lift, io_ret,
    thumbnail_save_options.
  destruct (image_open input_path w) as [img|e] eqn:Hopen.
  2:{ exists false, w. split; [reflexivity|]. split; [discriminate|].
      intros (? & ? & ? & _). discriminate. }
  destruct (image_thumbnail img size) as [img'|e] eqn:Hth.
  2:{ exists false, w. split; [reflexivity|]. split; [discriminate|].
      intros (? & ? & [= <-] & Hth' & _). rewrite Hth in Hth'. discriminate. }
  destruct (image_save img' output_path None _ w) as [[[]|e] w'] eqn:Hsave.
  - exists true, w'. split; [reflexivity|]. split; [|reflexivity].
    intros _. exists img, img'. repeat split; assumption.
  - exists false, w'. split; [reflexivity|]. split; [discriminate|].
    intros (? & ? & [= <-] & Hth' & Hsave').
    rewrite Hth in Hth'. injection Hth' as <-.
    rewrite Hsave in Hsave'. discriminate.
Qed.

(** X19.  [_optimize_image] for a target other than JPEG never raises.
    For an RGB image with a PNG target and [optimize] not switched off, it
    returns the image with a palette of 256 colours when that conversion
    succeeds, and the image unchanged when it raises.  In every other case
    with a target other than JPEG, and for a JPEG target with an image of
    mode RGB or L, it returns the image unchanged. *)
Theorem optimize_image_best_effort (img : Image) (format_name : option string)
    (o : options) :
  (format_name <> Some "JPEG" ->
   exists img', _optimize_image img format_name o = Ok img') /\
  (format_name = Some "PNG" -> image_mode img = "RGB" ->
   optimize o <> Some false ->
   (forall img', image_convert_adaptive img 256 = Ok img' ->
                 _optimize_image img format_name o = Ok img') /\
   (forall e, image_convert_adaptive img 256 = Raise e ->
              _optimize_image img format_name o = Ok img)) /\
  (format_name <> Some "JPEG" ->
   format_name <> Some "PNG" \/ image_mode img <> "RGB" \/ optimize o = Some false ->
   _optimize_image img format_name o = Ok img) /\
  (format_name = Some "JPEG" -> image_mode img ∈ ["RGB"; "L"] ->
   _optimize_image img format_name o = Ok img).
Proof.
  unfold _optimize_image, mode_in. split; [|split; [|split]].
  - intros Hne. rewrite (bool_decide_eq_false_2 _ Hne).
    cbn [andb mbind result_bind rbind].
    destruct (bool_decide (format_name = Some "PNG") &&
              String.eqb (image_mode img) "RGB"); [|eauto].
    destruct (default true (optimize o)); [|eauto].
    destruct (image_convert_adaptive img 256); eauto.
  - intros -> Hrgb Hopt.
    rewrite (bool_decide_eq_false_2 (Some "PNG" = Some "JPEG")) by discriminate.
    cbn [andb mbind result_bind rbind].
    rewrite (bool_decide_eq_true_2 _ (eq_refl (Some "PNG"))). cbn [andb].
    rewrite Hrgb, String.eqb_refl.
    assert (default true (optimize o) = true) as ->
      by (destruct (optimize o) as [[]|]; [reflexivity | congruence | reflexivity]).
    split; [intros img' ->; reflexivity | intros e ->; reflexivity].
  - intros Hne Hplain. rewrite (bool_decide_eq_false_2 _ Hne).
    cbn [andb mbind result_bind rbind].
    destruct (bool_decide (format_name = Some "PNG")) eqn:Hpng; cbn [andb];
      [|reflexivity].
    apply bool_decide_eq_true_1 in Hpng.
    destruct (String.eqb (image_mode img) "RGB") eqn:Hrgb; [|reflexivity].
    apply String.eqb_eq in Hrgb.
    destruct Hplain as [? | [? | ->]]; [congruence | congruence | reflexivity].
  - intros -> Hmode.
    assert (image_mode img <> "RGBA" /\ image_mode img <> "LA" /\
            image_mode img <> "P") as (Hm1 & Hm2 & Hm3).
    { pose proof Hmode as Hm.
      apply elem_of_cons in Hm as [Hm | Hm];
        [rewrite Hm; repeat split; discriminate|].
      apply elem_of_cons in Hm as [Hm | Hm];
        [rewrite Hm; repeat split; discriminate|].
      by apply elem_of_nil in Hm. }
    rewrite (bool_decide_eq_true_2 _ (eq_refl (Some "JPEG"))). cbn [andb].
    rewrite (bool_decide_eq_false_2 (image_mode img ∈ ["RGBA"; "LA"])).
    2:{ intros Hin. repeat (apply elem_of_cons in Hin as [Hin | Hin]);
          [congruence | congruence | by apply elem_of_nil in Hin]. }
    rewrite (bool_decide_eq_true_2 _ Hmode). cbn [negb mbind result_bind rbind].
    rewrite (bool_decide_eq_false_2 (Some "JPEG" = Some "PNG")) by discriminate.
    reflexivity.
Qed.

Lemma convert_true_resized (self : t) (input_path output_path spec : string)
    (o : options) (w w' : World) :
  given (resize o) = Some spec ->
  convert self input_path output_path o w = (Ok true, w') ->
  exists img new_size img',
    image_open input_path
      (snd (mkdir_parents
              (PurePath.to_str (PurePath.parent (PurePath.of_str output_path)))
              w)) = Ok img /\
    _parse_resize spec (image_size img) = Ok new_size /\
    image_resize img new_size = Ok img'.
Proof.
  intros Hspec. unfold convert, io_bind, io_read. cbv beta.
  cbn [_check_dependencies negb].
  destruct (path_exists _ w) as [found|]; [|discriminate].
  destruct (negb found); [discriminate|].
  destruct (negb (bool_decide _)); [discriminate|].
  unfold try_except, convert_try, io_bind, io_read.
  destruct (mkdir_parents _ w) as [[[]|e1] w1]; [|discriminate].
  cbn [snd].
  destruct (image_open input_path w1) as [img0|e2] eqn:Hopen; [|discriminate].
  destruct (output_format_name self output_path o (image_format img0))
    as [format_name|]; [|discriminate].
  rewrite Hspec. unfold io_lift.
  destruct (_parse_resize spec (image_size img0)) as [new_size|e3] eqn:Hparse;
    cbn [mbind result_bind rbind]; [|discriminate].
  destruct (image_resize img0 new_size) as [img1|e4] eqn:Hresize; [|discriminate].
  intros _. exists img0, new_size, img1. repeat split; assumption.
Qed.

(** X20.  When the image [resize] with an explicit specification
    [str(W) + 'x' + str(H)] returns [True], the opened input was resized
    by Pillow to [(W, H)] exactly. *)
Theorem image_resize_explicit_dimensions (self : t)
    (input_path output_path : string) (width height : Z) (o : options)
    (w w' : World) :
  resize_ self input_path output_path
    (decimal width ++ "x" ++ decimal height) o w
  = (Ok true, w') ->
  exists img img',
    image_open input_path
      (snd (mkdir_parents
              (PurePath.to_str (PurePath.parent (PurePath.of_str output_path)))
              w)) = Ok img /\
    image_resize img (width, height) = Ok img'.
Proof.
  unfold resize_. intros Hc.
  destruct (convert_true_resized self input_path output_path
              (decimal width ++ "x" ++ decimal height)
              (set_resize (decimal width ++ "x" ++ decimal height) o)
              w w') as
    (img & new_size & img' & Hopen & Hparse & Hresize); [|exact Hc|].
  - destruct o. cbn [set_resize resize]. apply given_nonempty.
    intros Heq. pose proof (dims_contains_x width height) as Hx.
    rewrite Heq in Hx. discriminate.
  - apply parse_resize_of_dims_inv in Hparse as ->. eauto.
Qed.

End ImageMethods.

Section Placement.
Import ImageConverter.

(** X21.  A watermark at least 20 pixels smaller than the image in both
    directions is placed wholly inside the image, for every position
    name: at the centre up to one pixel of rounding for ['center'], ten
    pixels from the right and bottom edges for ['bottom-right'], and at
    [(10, 10)] for a name that is none of the five. *)
Theorem watermark_pos_inside (position : string) (cw ch ww wh : Z) :
  0 <= ww -> ww + 20 <= cw -> 0 <= wh -> wh + 20 <= ch ->
  let (x, y) := watermark_pos position (cw, ch) (ww, wh) in
  0 <= x /\ x + ww <= cw /\ 0 <= y /\ y + wh <= ch /\
  (position = "center" ->
     0 <= (cw - ww) - 2 * x <= 1 /\ 0 <= (ch - wh) - 2 * y <= 1) /\
  (position = "bottom-right" -> x + ww + 10 = cw /\ y + wh + 10 = ch) /\
  (position ∉ ["top-left"; "top-right"; "bottom-left"; "bottom-right"; "center"] ->
     (x, y) = (10, 10)).
Proof.
  intros Hww Hcw Hwh Hch. unfold watermark_pos.
  pose proof (Z.div_mod (cw - ww) 2 ltac:(lia)) as D1.
  pose proof (Z.mod_pos_bound (cw - ww) 2 ltac:(lia)) as B1.
  pose proof (Z.div_mod (ch - wh) 2 ltac:(lia)) as D2.
  pose proof (Z.mod_pos_bound (ch - wh) 2 ltac:(lia)) as B2.
  destruct (String.eqb position "top-left") eqn:E1;
    [|destruct (String.eqb position "top-right") eqn:E2;
      [|destruct (String.eqb position "bottom-left") eqn:E3;
        [|destruct (String.eqb position "bottom-right") eqn:E4;
          [|destruct (String.eqb position "center") eqn:E5]]]];
    rewrite ?String.eqb_eq, ?String.eqb_neq in *; subst;
    repeat split; intros; try lia; try discriminate; try reflexivity;
    try congruence;
    try (exfalso;
         match goal with
         | Hn : _ ∉ _ |- _ =>
             apply Hn;
             solve [ apply list_elem_of_here
                   | do 1 apply list_elem_of_further; apply list_elem_of_here
                   | do 2 apply list_elem_of_further; apply list_elem_of_here
                   | do 3 apply list_elem_of_further; apply list_elem_of_here
                   | do 4 apply list_elem_of_further; apply list_elem_of_here ]
         end).
Qed.

Lemma watermark_pos_inside_witness :
  watermark_pos "center" (1000, 1000) (100, 100) = (450, 450).
Proof.
  pose proof (watermark_pos_inside "center" 1000 1000 100 100
                ltac:(lia) ltac:(lia) ltac:(lia) ltac:(lia)) as Hp.
  destruct (watermark_pos "center" (1000, 1000) (100, 100)) as [x y].
  destruct Hp as (_ & _ & _ & _ & Hc & _).
  destruct (Hc eq_refl) as [Hx Hy]. f_equal; lia.
Defined.

End Placement.

(** ** Batches over any list of inputs *)

Section BatchAny.
Context `{Platform}.
Variable process : PurePath.t -> io bool.
Hypothesis process_returns :
  forall f w,
    path_exists (PurePath.to_str (PurePath.of_str f)) w = Ok true ->
    exists b w', process (PurePath.of_str f) w = (Ok b, w').




End BatchAny.

Section BatchMore.
Context `{Platform}.


End BatchMore.

(** ** Runs on the simulated platform *)




(** The batch of the witness, run: the missing file is a failure for which
    [convert] was not called. *)
Example batch_convert_run :
  ImageConverter.batch_convert_traced (H := Sim.platform) ImageConverter.init
    ["photo.jpg"; "missing.jpg"] "out" ImageConverter.no_options
    Sim.sample_world
  = (Ok (<["missing.jpg" := false]> {["photo.jpg" := true]}, ["photo.jpg"]),
     <["out/photo.jpg" := 1024]> (<["out" := Sim.dir_size]> Sim.sample_world)).
Proof. vm_compute. reflexivity. Qed.

Lemma watermark_failure_is_contained_witness :
  ImageConverter.convert (H := Sim.platform) ImageConverter.init "photo.jpg"
    "out/photo.png" (with_watermark "logo.png") Sim.sample_world
  = (Ok true,
     <["out/photo.png" := 1024]> (<["out" := Sim.dir_size]> Sim.sample_world)).
Proof.
  destruct (watermark_failure_is_contained (H := Sim.platform)
              ImageConverter.init
              {| Sim.fmt := None; Sim.mode := "RGB"; Sim.size := (1, 1) |}
              "logo.png" (with_watermark "logo.png") Sim.sample_world)
    as (_ & _ & _ & _ & Hconv).
  rewrite (Hconv "photo.jpg" "out/photo.png" OSError eq_refl);
    vm_compute; reflexivity.
Defined.

(** A film and a photograph converted on the simulated platform. *)
Example video_convert_run :
  VideoConverter.convert (H := Sim.platform)
    (VideoConverter.init (encoder_at "/usr/bin/ffmpeg")) "clip.mov"
    "out/clip.mp4" h265_720p Sim.sample_world
  = (Ok true,
     <["out/clip.mp4" := 2048]> (<["out" := Sim.dir_size]> Sim.sample_world)).
Proof. vm_compute. reflexivity. Qed.

Example video_convert_missing_encoder :
  VideoConverter.convert (H := Sim.platform)
    (VideoConverter.init (fun _ => None)) "clip.mov" "out/clip.mp4"
    h265_720p Sim.sample_world
  = (Ok false, Sim.sample_world).
Proof. vm_compute. reflexivity. Qed.

(** C4, at the failing input: an input name of 256 characters, with the
    encoder installed.  The existence test raises, and so does
    [convert]. *)
Lemma video_convert_verdict_witness :
  path_exists (Platform := Sim.platform)
    (PurePath.to_str (PurePath.of_str (Sim.long_name ".mov"))) Sim.sample_world
  = Raise OSError /\
  VideoConverter.convert (H := Sim.platform)
    (VideoConverter.init (encoder_at "/usr/bin/ffmpeg")) (Sim.long_name ".mov")
    "out/clip.mp4" VideoConverter.no_options Sim.sample_world
  = (Raise OSError, Sim.sample_world).
Proof.
  split; [vm_compute; reflexivity|].
  destruct (video_convert_verdict (H := Sim.platform)
              (VideoConverter.init (encoder_at "/usr/bin/ffmpeg"))
              (Sim.long_name ".mov") "out/clip.mp4" VideoConverter.no_options
              Sim.sample_world) as [Hraise _].
  apply Hraise; vm_compute; reflexivity.
Defined.

(** The other methods, run on the simulated platform. *)

Lemma video_convert_rejects_early_witness :
  VideoConverter.convert (H := Sim.platform)
    (VideoConverter.init (encoder_at "/usr/bin/ffmpeg")) "missing.mov"
    "out/clip.mp4" VideoConverter.no_options Sim.sample_world
  = (Ok false, Sim.sample_world) /\
  VideoConverter.convert (H := Sim.platform)
    (VideoConverter.init (encoder_at "/usr/bin/ffmpeg")) (Sim.long_name ".mov")
    "out/clip.mp4" VideoConverter.no_options Sim.sample_world
  = (Raise OSError, Sim.sample_world).
Proof.
  split.
  - apply (video_convert_rejects_early (H := Sim.platform)).
    right. vm_compute. reflexivity.
  - apply (video_convert_rejects_early (H := Sim.platform));
      [discriminate | vm_compute; reflexivity].
Defined.

Lemma video_convert_invalid_options_witness :
  VideoConverter.convert (H := Sim.platform)
    (VideoConverter.init (encoder_at "/usr/bin/ffmpeg")) "clip.mov"
    "out/clip.mp4" (VideoConverter.set_resolution "wide" VideoConverter.no_options)
    Sim.sample_world
  = (Ok false, <["out" := Sim.dir_size]> Sim.sample_world).
Proof.
  rewrite (video_convert_invalid_options (H := Sim.platform)
             (VideoConverter.init (encoder_at "/usr/bin/ffmpeg")) "clip.mov"
             "out/clip.mp4"
             (VideoConverter.set_resolution "wide" VideoConverter.no_options)
             Sim.sample_world ValueError);
    vm_compute; reflexivity.
Defined.

Lemma extract_audio_outcome_witness :
  VideoConverter.extract_audio (H := Sim.platform)
    (VideoConverter.init (encoder_at "/usr/bin/ffmpeg")) "clip.mov" "clip.mp3"
    "mp3" Sim.sample_world
  = (Ok true, <["clip.mp3" := 2048]> Sim.sample_world).
Proof.
  pose proof (extract_audio_outcome (H := Sim.platform)
                (VideoConverter.init (encoder_at "/usr/bin/ffmpeg")) "clip.mov"
                "clip.mp3" "mp3" Sim.sample_world) as Hp.
  change (given (VideoConverter.ffmpeg_path
                   (VideoConverter.init (encoder_at "/usr/bin/ffmpeg"))))
    with (Some "/usr/bin/ffmpeg") in Hp.
  cbv beta iota zeta in Hp. destruct Hp as [Hok _].
  rewrite (Hok 0 (<["clip.mp3" := 2048]> Sim.sample_world));
    vm_compute; reflexivity.
Defined.

Lemma video_thumbnail_outcome_witness :
  VideoConverter.create_thumbnail (H := Sim.platform)
    (VideoConverter.init (encoder_at "/usr/bin/ffmpeg")) "missing.mov"
    "thumb.jpg" "00:00:01" Sim.sample_world
  = (Ok false, Sim.sample_world).
Proof.
  pose proof (video_thumbnail_outcome (H := Sim.platform)
                (VideoConverter.init (encoder_at "/usr/bin/ffmpeg")) "missing.mov"
                "thumb.jpg" "00:00:01" Sim.sample_world) as Hp.
  change (given (VideoConverter.ffmpeg_path
                   (VideoConverter.init (encoder_at "/usr/bin/ffmpeg"))))
    with (Some "/usr/bin/ffmpeg") in Hp.
  cbv beta iota zeta in Hp. destruct Hp as [Hok _].
  rewrite (Hok 1 Sim.sample_world); vm_compute; reflexivity.
Defined.

Lemma image_convert_rejects_early_witness :
  ImageConverter.convert (H := Sim.platform) ImageConverter.init "missing.jpg"
    "out/missing.png" ImageConverter.no_options Sim.sample_world
  = (Ok false, Sim.sample_world) /\
  ImageConverter.convert (H := Sim.platform) ImageConverter.init
    (Sim.long_name ".txt") "out/notes.png" ImageConverter.no_options
    Sim.sample_world
  = (Raise OSError, Sim.sample_world).
Proof.
  split.
  - apply (image_convert_rejects_early (H := Sim.platform)).
    left. vm_compute. reflexivity.
  - apply (image_convert_rejects_early (H := Sim.platform)).
    vm_compute. reflexivity.
Defined.

Lemma image_convert_unsupported_format_witness :
  ImageConverter.convert (H := Sim.platform) ImageConverter.init "photo.jpg"
    "out/photo.xyz"
    (ImageConverter.Build_options (Some "xyz") None None None None None None
       None None None None None None None None)
    Sim.sample_world
  = (Ok false, <["out" := Sim.dir_size]> Sim.sample_world).
Proof.
  rewrite (image_convert_unsupported_format (H := Sim.platform)
             ImageConverter.init "photo.jpg" "out/photo.xyz" "xyz" _
             Sim.sample_world).
  - vm_compute. reflexivity.
  - vm_compute. reflexivity.
  - apply elem_of_list_to_set. apply list_elem_of_here.
  - reflexivity.
  - vm_compute. reflexivity.
Defined.

Lemma image_convert_success_saved_witness :
  exists w1 img format_name,
    mkdir_parents (Platform := Sim.platform)
      (PurePath.to_str (PurePath.parent (PurePath.of_str "out/photo.png")))
      Sim.sample_world
    = (Ok tt, w1) /\
    image_save (Platform := Sim.platform) img "out/photo.png" format_name
      (ImageConverter.prepare_save_options format_name
         (ImageConverter.resolve_quality ImageConverter.init
            ImageConverter.no_options)
         ImageConverter.no_options) w1
    = (Ok tt,
       <["out/photo.png" := 1024]> (<["out" := Sim.dir_size]> Sim.sample_world)).
Proof.
  apply (image_convert_success_saved (H := Sim.platform) ImageConverter.init
           "photo.jpg" "out/photo.png" ImageConverter.no_options Sim.sample_world).
  vm_compute. reflexivity.
Defined.

Lemma compress_forces_optimize_witness :
  exists w' img format_name params w1,
    image_save (Platform := Sim.platform) img "out/photo.jpg" format_name params w1
    = (Ok tt, w') /\
    (format_name ∈ [Some "JPEG"; Some "PNG"; Some "WebP"] ->
     params !! "optimize" = Some (VBool true)) /\
    (format_name ∈ [Some "JPEG"; Some "WebP"] ->
     params !! "quality" = Some (VInt 95)).
Proof.
  exists (<["out/photo.jpg" := 1024]> (<["out" := Sim.dir_size]> Sim.sample_world)).
  apply (compress_forces_optimize (H := Sim.platform) ImageConverter.init
           "photo.jpg" "out/photo.jpg" (VStr "high") ImageConverter.no_options
           Sim.sample_world).
  vm_compute. reflexivity.
Defined.

(** An RGB image saved as PNG comes back with a palette; a greyscale image
    saved as JPEG comes back as it was. *)
Lemma optimize_image_best_effort_witness :
  ImageConverter._optimize_image (H := Sim.platform)
    {| Sim.fmt := None; Sim.mode := "RGB"; Sim.size := (4, 3) |} (Some "PNG")
    ImageConverter.no_options
  = Ok {| Sim.fmt := None; Sim.mode := "P"; Sim.size := (4, 3) |} /\
  ImageConverter._optimize_image (H := Sim.platform)
    {| Sim.fmt := None; Sim.mode := "L"; Sim.size := (4, 3) |} (Some "JPEG")
    ImageConverter.no_options
  = Ok {| Sim.fmt := None; Sim.mode := "L"; Sim.size := (4, 3) |}.
Proof.
  split.
  - destruct (optimize_image_best_effort (H := Sim.platform)
                {| Sim.fmt := None; Sim.mode := "RGB"; Sim.size := (4, 3) |}
                (Some "PNG") ImageConverter.no_options) as (_ & Hpng & _).
    destruct (Hpng eq_refl eq_refl ltac:(discriminate)) as [Hok _].
    apply Hok. reflexivity.
  - destruct (optimize_image_best_effort (H := Sim.platform)
                {| Sim.fmt := None; Sim.mode := "L"; Sim.size := (4, 3) |}
                (Some "JPEG") ImageConverter.no_options) as (_ & _ & _ & Hjpeg).
    apply Hjpeg; [reflexivity|].
    apply list_elem_of_further, list_elem_of_here.
Defined.


Lemma image_resize_explicit_dimensions_witness :
  exists img img',
    image_open (Platform := Sim.platform) "photo.jpg"
      (snd (mkdir_parents (Platform := Sim.platform)
              (PurePath.to_str (PurePath.parent (PurePath.of_str "out/small.jpg")))
              Sim.sample_world)) = Ok img /\
    image_resize (Platform := Sim.platform) img (800, 600) = Ok img'.
Proof.
  apply (image_resize_explicit_dimensions (H := Sim.platform) ImageConverter.init
           "photo.jpg" "out/small.jpg" 800 600 ImageConverter.no_options
           Sim.sample_world
           (<["out/small.jpg" := 1024]>
              (<["out" := Sim.dir_size]> Sim.sample_world))).
  vm_compute. reflexivity.
Defined.
